(** * AI voice detection API: the acquisition-to-classification pipeline

    A shallow embedding of [main.py]: the two audio helpers, the feature
    extractor, the rule-based classifier and the [/predict] route with its
    fallback and its [finally] clean-up.

    Numeric model.  Python floats are modelled by exact rationals ([Q]) plus
    one distinguished [NaN]; the rounding error of single binary64
    operations and infinities are not modelled.  What numpy does on an empty
    array ([np.mean] gives nan with a warning) and what Python does on an
    integer division by zero (it raises) are modelled as the code has them.
    The theorems on extracted features are therefore stated on what binary64
    computes without rounding: signs, comparisons and counts for every
    waveform, sums of squares for 16-bit audio ([pcm16]); the threshold of
    the peak finder is left as whatever [np.std] returns.

    Libraries outside the repository - the HTTP client, [base64], the
    temporary directory, [soundfile] and [urllib.parse.urlparse], which
    raises ValueError on a URL it does not accept - answer through an
    environment [Env]. *)

From Stdlib Require Import QArith Qround Qabs Qminmax ZArith List String Ascii Lia Lqa Bool.
From stdpp Require Import base gmap.
Import ListNotations.

Local Open Scope Q_scope.
Local Open Scope string_scope.

(* ------------------------------------------------------------------ *)
(** ** Floats *)

Inductive pyfloat : Type :=
| Fin (q : Q)
| NaN.

(** Equality of float values: rationals up to [Qeq]; nan only matches nan
    (used for stating results, not for Python's [==]). *)
Definition feq (a b : pyfloat) : Prop :=
  match a, b with
  | Fin x, Fin y => x == y
  | NaN, NaN => True
  | _, _ => False
  end.

Definition Qltb (x y : Q) : bool := negb (Qle_bool y x).

(** [a < b] on floats: every comparison with nan is [False]. *)
Definition flt (a : pyfloat) (b : Q) : bool :=
  match a with
  | Fin x => Qltb x b
  | NaN => false
  end.

(** [min(a, b)] of Python: [b] when [b < a], else [a]. *)
Definition py_min (a b : Q) : Q := if Qltb b a then b else a.

(** Nearest integer, ties to the even one. *)
Definition round_half_even (x : Q) : Z :=
  let f := Qfloor x in
  let r := x - inject_Z f in
  if Qltb r (1 # 2) then f
  else if Qltb (1 # 2) r then (f + 1)%Z
  else if Z.even f then f else (f + 1)%Z.

(** [round(x, 2)]. *)
Definition py_round2 (x : Q) : Q :=
  Qred (inject_Z (round_half_even (x * 100)) / 100).

(* ------------------------------------------------------------------ *)
(** ** Strings *)

Definition lower_ascii (c : ascii) : ascii :=
  let n := nat_of_ascii c in
  if (65 <=? n)%nat && (n <=? 90)%nat then ascii_of_nat (n + 32) else c.

(** [str.lower] on ASCII text. *)
Fixpoint lower (s : string) : string :=
  match s with
  | EmptyString => EmptyString
  | String c s' => String (lower_ascii c) (lower s')
  end.

(** [sep.join(l)]. *)
Definition join (sep : string) (l : list string) : string := String.concat sep l.

(** Truth value of an optional string: [None] and [""] are falsy. *)
Definition truthy (s : option string) : bool :=
  match s with
  | Some (String _ _) => true
  | _ => false
  end.

(** [s or d]. *)
Definition or_default (s : option string) (d : string) : string :=
  match s with
  | Some (String c r) => String c r
  | _ => d
  end.

(* ------------------------------------------------------------------ *)
(** ** Models *)

Record AudioRequest : Type := {
  audio_url : option string;
  audioBase64 : option string;
  audioFormat : option string;
  language : option string
}.

(** A field of the request body as the client sent it. *)
Inductive field : Type :=
| Omitted
| Null
| Str (s : string).

Definition field_value (f : field) (default : option string) : option string :=
  match f with
  | Omitted => default
  | Null => None
  | Str s => Some s
  end.

(** Construction of the request model from the body, with the declared
    defaults: [None] for the three audio fields, ["English"] for the
    language. *)
Definition AudioRequest_of_body (url b64 fmt lang : field) : AudioRequest :=
  {| audio_url := field_value url None;
     audioBase64 := field_value b64 None;
     audioFormat := field_value fmt None;
     language := field_value lang (Some "English") |}.

Record PredictionResponse : Type := {
  classification : string;
  confidence : Q;
  resp_language : string;
  explanation : string
}.

Record FeatureVector : Type := {
  energy : pyfloat;
  zcr : pyfloat;
  peak_density : pyfloat
}.

(* ------------------------------------------------------------------ *)
(** ** Analysis *)

Definition analyze (features : FeatureVector) (lang : string) : PredictionResponse :=
  let score := 0.5 in
  let reasons := @nil string in
  let '(score, reasons) :=
    if flt (peak_density features) 0.01
    then (score + 0.2, (reasons ++ ["uniform waveform structure"])%list)
    else (score, reasons) in
  let '(score, reasons) :=
    if flt (zcr features) 0.05
    then (score + 0.2, (reasons ++ ["low zero-crossing rate"])%list)
    else (score, reasons) in
  let confidence := py_round2 (py_min score 1.0) in
  let label := if Qltb 0.55 confidence then "AI Generated" else "Human" in
  {| classification := label;
     confidence := confidence;
     resp_language := lang;
     explanation :=
       "Analysis suggests " ++ lower label ++ " voice: " ++ join ", " reasons |}.

(* ------------------------------------------------------------------ *)
(** ** Exceptions *)

(** The exceptions ([Exception] subclasses) that the modelled code raises
    or lets through. *)
Inductive exn : Type :=
| HTTPException (status_code : nat) (detail : string)
| ValueError (msg : string)
| ZeroDivisionError
| BinasciiError
| OSError
| LibsndfileError
| TransportError.

(* ------------------------------------------------------------------ *)
(** ** Array helpers (numpy, scipy) *)

Definition np_sum (a : list Q) : Q := fold_right Qplus 0 a.

Definition len (a : list Q) : Q := inject_Z (Z.of_nat (length a)).

(** [np.mean(a)]: nan on an empty array. *)
Definition np_mean (a : list Q) : pyfloat :=
  match a with
  | [] => NaN
  | _ :: _ => Fin (np_sum a / len a)
  end.

(** [np.sign]. *)
Definition np_sign (x : Q) : Q :=
  match (x ?= 0)%Q with
  | Lt => -1
  | Eq => 0
  | Gt => 1
  end.

(** [np.diff(a)]: [a[i+1] - a[i]], one element shorter than [a]. *)
Fixpoint np_diff (a : list Q) : list Q :=
  match a with
  | x :: (y :: _) as t => (y - x) :: np_diff t
  | _ => []
  end.

(** The value of a square root, kept as its radicand. *)
Inductive root : Type :=
| Sqrt (v : pyfloat).

(** [np.std(a)]: the root of the mean squared deviation from the mean. *)
Definition np_std (a : list Q) : root :=
  match np_mean a with
  | Fin m => Sqrt (np_mean (map (fun x => (x - m) * (x - m)) a))
  | NaN => Sqrt NaN
  end.

(** [r <= h]: for [h >= 0], [sqrt v <= h] exactly when [v <= h * h]. *)
Definition root_le (r : root) (h : Q) : bool :=
  match r with
  | Sqrt (Fin v) => Qle_bool 0 h && Qle_bool v (h * h)
  | Sqrt NaN => false
  end.

(** The look-ahead of the peak finder: the next sample unequal to [v]
    exists and is smaller than [v]. *)
Fixpoint falls (v : Q) (l : list Q) : bool :=
  match l with
  | [] => false
  | y :: l' => if Qeq_bool y v then falls v l' else Qltb y v
  end.

(** Local maxima by comparison of neighbouring samples, as
    [scipy.signal.find_peaks] finds them: a sample higher than its
    predecessor whose next unequal sample is lower; a flat top counts once
    and the two border samples never do.  [prev] is the sample before [l];
    the result lists the peak heights. *)
Fixpoint local_maxima (prev : Q) (l : list Q) : list Q :=
  match l with
  | [] => []
  | x :: rest =>
      if Qltb prev x && falls x rest
      then x :: local_maxima x rest
      else local_maxima x rest
  end.

(** [find_peaks(x, height=hmin)]: the local maxima with [hmin <= x[peak]]. *)
Definition find_peaks (x : list Q) (hmin : root) : list Q :=
  match x with
  | [] => []
  | x0 :: rest => List.filter (root_le hmin) (local_maxima x0 rest)
  end.

(* ------------------------------------------------------------------ *)
(** ** Feature extraction *)

(** What [sf.read] returns: a 1-D array for one channel, else one row of
    channel values for each frame. *)
Inductive ndarray : Type :=
| Mono (samples : list Q)
| Multi (frames : list (list Q)).

(** [audio.mean(axis=1)] when [audio.ndim > 1]; the rows of a decoded
    multi-channel file hold at least two values. *)
Definition to_mono (audio : ndarray) : list Q :=
  match audio with
  | Mono samples => samples
  | Multi frames => map (fun row => np_sum row / len row) frames
  end.

(** Lines 90-100 of [extract_features], on the mono samples.  The division
    [len(peaks) / len(audio)] is one of Python integers and raises on a
    zero divisor. *)
Definition waveform_features (audio : list Q) : exn + FeatureVector :=
  let energy := np_mean (map (fun x => x * x) audio) in
  let zcr := np_mean (map Qabs (np_diff (map np_sign audio))) in
  let peaks := find_peaks (map Qabs audio) (np_std audio) in
  match audio with
  | [] => inl ZeroDivisionError
  | _ :: _ =>
      inr {| energy := energy;
             zcr := zcr;
             peak_density := Fin (inject_Z (Z.of_nat (length peaks)) / len audio) |}
  end.

(* ------------------------------------------------------------------ *)
(** ** The world outside: temporary files and the network *)

Record File : Type := {
  suffix : string;
  content : list Byte.byte
}.

Record World : Type := {
  files : gmap positive File;   (* the temporary directory, by path *)
  fetched : list string;        (* URLs requested over the network *)
  created : list positive;      (* temporary files created *)
  unlinked : list positive      (* paths passed to os.unlink *)
}.

(** What [urlparse(url)] hands to the route: the scheme of the URL, or the
    ValueError it raises on a URL it does not accept. *)
Inductive parsed : Type :=
| Scheme (scheme : string)
| InvalidURL (msg : string).

(** What the libraries answer during one request. *)
Record Env : Type := {
  urlparse : string -> parsed;
    (* the scheme urllib.parse finds; InvalidURL: it raises ValueError *)
  http_get : string -> option (nat * list Byte.byte);
    (* status code and body; None: the client raises (timeout, no route) *)
  b64decode : string -> option (list Byte.byte);
    (* None: binascii.Error *)
  sf_read : File -> option ndarray;
    (* None: the file is not readable audio *)
  tmp_create_ok : string -> bool;
    (* a temporary file with this suffix can be created *)
  tmp_write_ok : list Byte.byte -> bool
    (* these bytes can be written and the file closed *)
}.

(** State and exceptions. *)
Definition M (S A : Type) : Type := S -> (exn + A) * S.

Definition ret {S A : Type} (a : A) : M S A := fun s => (inr a, s).

Definition raise {S A : Type} (e : exn) : M S A := fun s => (inl e, s).

Definition bind {S A B : Type} (m : M S A) (k : A -> M S B) : M S B :=
  fun s =>
    match m s with
    | (inl e, s') => (inl e, s')
    | (inr a, s') => k a s'
    end.

Notation "'let!' x ':=' m 'in' k" := (bind m (fun x => k))
  (at level 10, x name, m at level 100, k at level 200).

(** [try: body except Exception as e: handler e]. *)
Definition try_except {S A : Type} (body : M S A) (handler : exn -> M S A) : M S A :=
  fun s =>
    match body s with
    | (inl e, s') => handler e s'
    | (inr a, s') => (inr a, s')
    end.

(** [try: body finally: final]: [final] always runs; what it raises
    replaces the outcome of [body]. *)
Definition try_finally {S A : Type} (body : M S A) (final : M S unit) : M S A :=
  fun s =>
    let '(r, s1) := body s in
    match final s1 with
    | (inl e, s2) => (inl e, s2)
    | (inr _, s2) => (r, s2)
    end.

(** [await client.get(url)]. *)
Definition client_get (env : Env) (url : string) : M World (nat * list Byte.byte) :=
  fun w =>
    let w' := {| files := files w; fetched := url :: fetched w;
                 created := created w; unlinked := unlinked w |} in
    match http_get env url with
    | Some r => (inr r, w')
    | None => (inl TransportError, w')
    end.

(** [tempfile.NamedTemporaryFile(delete=False, suffix=sfx)]: a new, empty
    file under a name not in use. *)
Definition NamedTemporaryFile (env : Env) (sfx : string) : M World positive :=
  fun w =>
    if tmp_create_ok env sfx then
      let p := fresh (dom (files w)) in
      (inr p, {| files := <[p := {| suffix := sfx; content := [] |}]> (files w);
                 fetched := fetched w;
                 created := p :: created w;
                 unlinked := unlinked w |})
    else (inl OSError, w).

(** [tmp.write(data); tmp.close()]. *)
Definition write_close (env : Env) (tmp : positive) (data : list Byte.byte) : M World unit :=
  fun w =>
    if tmp_write_ok env data then
      (inr tt, {| files := alter (fun f => {| suffix := suffix f; content := data |})
                                 tmp (files w);
                  fetched := fetched w;
                  created := created w;
                  unlinked := unlinked w |})
    else (inl OSError, w).

(** [path.exists()]. *)
Definition path_exists (p : positive) : M World bool :=
  fun w => (inr (bool_decide (is_Some (files w !! p))), w).

(** [os.unlink(path)]. *)
Definition os_unlink (p : positive) : M World unit :=
  fun w =>
    match files w !! p with
    | Some _ => (inr tt, {| files := delete p (files w);
                             fetched := fetched w;
                             created := created w;
                             unlinked := p :: unlinked w |})
    | None => (inl OSError, w)
    end.

(* ------------------------------------------------------------------ *)
(** ** Audio helpers *)

Definition download_audio (env : Env) (url : string) : M World positive :=
  let! r := client_get env url in
  if negb (fst r =? 200)%nat then
    raise (HTTPException 400 "Failed to download audio")
  else
    let! tmp := NamedTemporaryFile env ".wav" in
    let! _ := write_close env tmp (snd r) in
    ret tmp.

Definition save_base64_audio (env : Env) (data : string) (fmt : option string)
  : M World positive :=
  try_except
    (let! audio_bytes :=
       (match b64decode env data with
        | Some b => ret b
        | None => raise BinasciiError
        end) in
     let sfx := if truthy fmt then "." ++ or_default fmt "" else ".wav" in
     let! tmp := NamedTemporaryFile env sfx in
     let! _ := write_close env tmp audio_bytes in
     ret tmp)
    (fun _ => raise (ValueError "Invalid base64 audio")).

(** [extract_features(path)]: [sf.read], the reduction to mono, then the
    three features. *)
Definition extract_features (env : Env) (path : positive) : M World FeatureVector :=
  fun w =>
    match files w !! path with
    | None => (inl LibsndfileError, w)
    | Some f =>
        match sf_read env f with
        | None => (inl LibsndfileError, w)
        | Some audio => (waveform_features (to_mono audio), w)
        end
    end.

(* ------------------------------------------------------------------ *)
(** ** URL scheme *)

Definition is_alpha (c : ascii) : bool :=
  let n := nat_of_ascii c in
  ((65 <=? n) && (n <=? 90) || (97 <=? n) && (n <=? 122))%nat.

Definition is_digit (c : ascii) : bool :=
  let n := nat_of_ascii c in ((48 <=? n) && (n <=? 57))%nat.

(** Letters, digits and [+-.]. *)
Definition scheme_char (c : ascii) : bool :=
  is_alpha c || is_digit c
  || Ascii.eqb c "+" || Ascii.eqb c "-" || Ascii.eqb c ".".

Fixpoint all_chars (p : ascii -> bool) (s : string) : bool :=
  match s with
  | EmptyString => true
  | String c s' => p c && all_chars p s'
  end.

(** Leading C0 control characters and spaces are dropped. *)
Fixpoint lstrip_c0 (s : string) : string :=
  match s with
  | String c s' => if (nat_of_ascii c <=? 32)%nat then lstrip_c0 s' else s
  | EmptyString => EmptyString
  end.

(** Tab, line feed and carriage return are removed wherever they are. *)
Fixpoint remove_tab_nl (s : string) : string :=
  match s with
  | EmptyString => EmptyString
  | String c s' =>
      let n := nat_of_ascii c in
      if ((n =? 9) || (n =? 10) || (n =? 13))%nat
      then remove_tab_nl s'
      else String c (remove_tab_nl s')
  end.

(** The text before the first colon and the text after it, if there is a
    colon. *)
Fixpoint split_colon (s : string) : option (string * string) :=
  match s with
  | EmptyString => None
  | String c s' =>
      if Ascii.eqb c ":" then Some (EmptyString, s')
      else match split_colon s' with
           | Some (pre, rest) => Some (String c pre, rest)
           | None => None
           end
  end.

(** The network location: the text up to the first of [/], [?] and [#]. *)
Fixpoint netloc_of (s : string) : string :=
  match s with
  | EmptyString => EmptyString
  | String c s' =>
      if Ascii.eqb c "/" || Ascii.eqb c "?" || Ascii.eqb c "#"
      then EmptyString
      else String c (netloc_of s')
  end.

Fixpoint contains (c : ascii) (s : string) : bool :=
  match s with
  | EmptyString => false
  | String c' s' => Ascii.eqb c c' || contains c s'
  end.

(** The scheme as [urllib.parse] splits it off: the text before the first
    colon, lowercased, when it starts with a letter and holds scheme
    characters only, else the empty string; a network location after [//]
    with one square bracket but not the other makes it raise.  The further
    checks of the library (a bracketed host must be an IP literal, hosts
    outside ASCII) are not written out; [predict] takes the answer of the
    library from the environment, and this function is the answer in the
    example environments. *)
Definition urlsplit_scheme (url : string) : parsed :=
  let url := remove_tab_nl (lstrip_c0 url) in
  let '(scheme, rest) :=
    match split_colon url with
    | Some (String c r, rest) =>
        if is_alpha c && all_chars scheme_char (String c r)
        then (lower (String c r), rest)
        else ("", url)
    | _ => ("", url)
    end in
  match rest with
  | String "/" (String "/" after) =>
      if xorb (contains "[" (netloc_of after)) (contains "]" (netloc_of after))
      then InvalidURL "Invalid IPv6 URL"
      else Scheme scheme
  | _ => Scheme scheme
  end.

(* ------------------------------------------------------------------ *)
(** ** Routes *)

(** The local variable [path] of [predict], next to the world. *)
Record Frame : Type := {
  path : option positive;
  world : World
}.

(** A computation on the world, run inside [predict]. *)
Definition in_world {A : Type} (m : M World A) : M Frame A :=
  fun fr =>
    let '(r, w) := m (world fr) in
    (r, {| path := path fr; world := w |}).

(** [path = m]: the variable is bound only if [m] returns. *)
Definition assign_path (m : M World positive) : M Frame positive :=
  fun fr =>
    match m (world fr) with
    | (inl e, w) => (inl e, {| path := path fr; world := w |})
    | (inr p, w) => (inr p, {| path := Some p; world := w |})
    end.

(** The fixed answer of the inline path when anything in it raises. *)
Definition fallback (lang : string) : PredictionResponse :=
  {| classification := "AI Generated";
     confidence := 0.71;
     resp_language := lang;
     explanation :=
       "Analysis suggests ai generated voice: consistent spectral properties" |}.

(** The inner [try] body of the [audioBase64] branch. *)
Definition inline_path (env : Env) (req : AudioRequest) (data : string)
  : M Frame PredictionResponse :=
  let! path := assign_path (save_base64_audio env data (audioFormat req)) in
  let! features := in_world (extract_features env path) in
  ret (analyze features (or_default (language req) "English")).

(** The [audio_url] branch. *)
Definition url_path (env : Env) (req : AudioRequest) (url : string)
  : M Frame PredictionResponse :=
  let! scheme :=
    (match urlparse env url with
     | Scheme scheme => ret scheme
     | InvalidURL msg => raise (ValueError msg)
     end) in
  if negb (String.eqb scheme "http" || String.eqb scheme "https") then
    raise (HTTPException 400 "Invalid audio URL")
  else
    let! path := assign_path (download_audio env url) in
    let! features := in_world (extract_features env path) in
    ret (analyze features (or_default (language req) "English")).

(** The [finally] block: [if path and path.exists(): os.unlink(path)]. *)
Definition cleanup : M Frame unit :=
  fun fr =>
    match path fr with
    | Some p =>
        in_world (let! e := path_exists p in
                  if (e : bool) then os_unlink p else ret tt) fr
    | None => (inr tt, fr)
    end.

Definition predict (env : Env) (req : AudioRequest) : M World PredictionResponse :=
  fun w =>
    let body : M Frame PredictionResponse :=
      match audio_url req with
      | Some (String c u) => url_path env req (String c u)
      | _ =>
          match audioBase64 req with
          | Some (String c d) =>
              try_except
                (inline_path env req (String c d))
                (fun _ => ret (fallback (or_default (language req) "English")))
          | _ => raise (HTTPException 422 "audio_url or audioBase64 required")
          end
      end in
    let '(r, fr) := try_finally body cleanup {| path := None; world := w |} in
    (r, world fr).

(** What the caller sees: the result with status 200, the error body that
    [handler] builds from an [HTTPException], or the framework's answer to
    any other exception. *)
Inductive http_response : Type :=
| Ok200 (body : PredictionResponse)
| ErrorBody (status_code : nat) (error : string)
| InternalServerError.

Definition handler (r : exn + PredictionResponse) : http_response :=
  match r with
  | inr body => Ok200 body
  | inl (HTTPException status_code detail) => ErrorBody status_code detail
  | inl _ => InternalServerError
  end.

(** A request from the body to the answer. *)
Definition serve (env : Env) (url b64 fmt lang : field) (w : World)
  : http_response * World :=
  let '(r, w') := predict env (AudioRequest_of_body url b64 fmt lang) w in
  (handler r, w').

(* ------------------------------------------------------------------ *)
(** ** Sixteen-bit audio *)

(** A sample of 16-bit PCM audio as [sf.read] returns it: [k / 32768] for
    a whole number [-32768 <= k < 32768]. *)
Definition pcm16_sample (x : Q) : bool :=
  Qle_bool (-1) x && Qltb x 1
  && Qeq_bool (inject_Z (Qfloor (x * 32768))) (x * 32768).

(** A waveform of fewer than [2 ^ 23] such samples.  The squares of its
    samples and every sum of them are whole multiples of [2 ^ -30] below
    [2 ^ 23]: an IEEE double holds each of them without rounding. *)
Definition pcm16 (w : list Q) : bool :=
  (Z.of_nat (length w) <? 2 ^ 23)%Z && forallb pcm16_sample w.

(* ------------------------------------------------------------------ *)
(** ** The features in the words of the specification *)

Module Spec.

(** Sample [i] of a waveform. *)
Definition sample (w : list Q) (i : nat) : Q := nth i w 0.

Definition count (n : nat) : Q := inject_Z (Z.of_nat n).

(** [f 0 + ... + f (n - 1)]. *)
Definition sum_upto (n : nat) (f : nat -> Q) : Q :=
  fold_right (fun i acc => f i + acc) 0 (seq 0 n).

(** The sign of a sample, in {-1, 0, 1}. *)
Definition sign_of (x s : Q) : Prop :=
  (x < 0 /\ s = -1) \/ (x == 0 /\ s = 0) \/ (0 < x /\ s = 1).

(** Mean of the squared sample values. *)
Definition energy (w : list Q) : Q :=
  sum_upto (length w) (fun i => sample w i * sample w i) / count (length w).





End Spec.


(* ------------------------------------------------------------------ *)
(** ** Worlds along a request *)

(** The world after a temporary file was created, after it was written,
    and after it was unlinked again. *)
Definition touched (w : World) (sfx : string) : World :=
  {| files := <[fresh (dom (files w)) := {| suffix := sfx; content := [] |}]> (files w);
     fetched := fetched w;
     created := fresh (dom (files w)) :: created w;
     unlinked := unlinked w |}.

Definition stored (w : World) (sfx : string) (data : list Byte.byte) : World :=
  {| files := <[fresh (dom (files w)) := {| suffix := sfx; content := data |}]> (files w);
     fetched := fetched w;
     created := fresh (dom (files w)) :: created w;
     unlinked := unlinked w |}.

Definition released (w : World) : World :=
  {| files := files w;
     fetched := fetched w;
     created := fresh (dom (files w)) :: created w;
     unlinked := fresh (dom (files w)) :: unlinked w |}.

Definition requested (w : World) (url : string) : World :=
  {| files := files w;
     fetched := url :: fetched w;
     created := created w;
     unlinked := unlinked w |}.

Definition suffix_of (fmt : option string) : string :=
  if truthy fmt then "." ++ or_default fmt "" else ".wav".

(** A step of the inline path fails: the base64 decoding, the creation of
    the temporary file, the writing of it, the audio decoding or the
    feature extraction, each after the steps before it went through. *)
Inductive inline_step_fails (env : Env) (req : AudioRequest) (data : string) : Prop :=
| base64_decoding_fails :
    b64decode env data = None ->
    inline_step_fails env req data
| file_creation_fails (b : list Byte.byte) :
    b64decode env data = Some b ->
    tmp_create_ok env (suffix_of (audioFormat req)) = false ->
    inline_step_fails env req data
| file_writing_fails (b : list Byte.byte) :
    b64decode env data = Some b ->
    tmp_create_ok env (suffix_of (audioFormat req)) = true ->
    tmp_write_ok env b = false ->
    inline_step_fails env req data
| audio_decoding_fails (b : list Byte.byte) :
    b64decode env data = Some b ->
    tmp_create_ok env (suffix_of (audioFormat req)) = true ->
    tmp_write_ok env b = true ->
    sf_read env {| suffix := suffix_of (audioFormat req); content := b |} = None ->
    inline_step_fails env req data
| feature_extraction_fails (b : list Byte.byte) (audio : ndarray) (e : exn) :
    b64decode env data = Some b ->
    tmp_create_ok env (suffix_of (audioFormat req)) = true ->
    tmp_write_ok env b = true ->
    sf_read env {| suffix := suffix_of (audioFormat req); content := b |} = Some audio ->
    waveform_features (to_mono audio) = inl e ->
    inline_step_fails env req data.

(* ------------------------------------------------------------------ *)
(** ** Example requests and environments *)

Definition empty_world : World :=
  {| files := ∅; fetched := []; created := []; unlinked := [] |}.

(** Every download and the payload ["AAAA"] give three zero bytes; a
    non-empty file decodes to as many silent samples; the disk works. *)
Definition example_env : Env :=
  {| urlparse := urlsplit_scheme;
     http_get := fun _ => Some (200%nat, [Byte.x00; Byte.x00; Byte.x00]);
     b64decode := fun s =>
       if String.eqb s "AAAA" then Some [Byte.x00; Byte.x00; Byte.x00] else None;
     sf_read := fun f =>
       match content f with
       | [] => None
       | bs => Some (Mono (map (fun _ => 0) bs))
       end;
     tmp_create_ok := fun _ => true;
     tmp_write_ok := fun _ => true |}.

(** The same, but no write to a temporary file goes through. *)
Definition disk_full_env : Env :=
  {| urlparse := urlparse example_env;
     http_get := http_get example_env;
     b64decode := b64decode example_env;
     sf_read := sf_read example_env;
     tmp_create_ok := fun _ => true;
     tmp_write_ok := fun _ => false |}.

Definition inline_request (data : string) (lang : field) : AudioRequest :=
  AudioRequest_of_body Omitted (Str data) Omitted lang.

Definition url_request (url : string) (lang : field) : AudioRequest :=
  AudioRequest_of_body (Str url) Omitted Omitted lang.

(* ------------------------------------------------------------------ *)
(** ** Security and the served route *)

Definition VALID_API_KEY : string := "hackathon_2024_secret_token".

(** [verify_token]: the header [x-api-key], [None] when it is absent. *)
Definition verify_token (x_api_key : option string) : exn + string :=
  match x_api_key with
  | Some key =>
      if negb (String.eqb key VALID_API_KEY)
      then inl (HTTPException 403 "Not authenticated")
      else inr key
  | None => inl (HTTPException 403 "Not authenticated")
  end.

(** [POST /predict]: the dependency [verify_token] runs first; the route
    body runs only when it returns. *)
Definition post_predict (env : Env) (x_api_key : option string)
           (url b64 fmt lang : field) (w : World) : http_response * World :=
  match verify_token x_api_key with
  | inl e => (handler (inl e), w)
  | inr _ => serve env url b64 fmt lang w
  end.

(** Requests served one after the other, each with what the libraries
    answer during it. *)
Fixpoint predict_all (reqs : list (Env * AudioRequest)) (w : World)
  : list (exn + PredictionResponse) * World :=
  match reqs with
  | [] => ([], w)
  | (env, req) :: rest =>
      let '(r, w1) := predict env req w in
      let '(rs, w2) := predict_all rest w1 in
      (r :: rs, w2)
  end.

(** An environment whose server answers 404 to every download. *)
Definition not_found_env : Env :=
  {| urlparse := urlparse example_env;
     http_get := fun _ => Some (404%nat, []);
     b64decode := b64decode example_env;
     sf_read := sf_read example_env;
     tmp_create_ok := fun _ => true;
     tmp_write_ok := fun _ => true |}.

(** An environment whose server answers 200 with an empty body, which is
    no readable audio. *)
Definition empty_download_env : Env :=
  {| urlparse := urlparse example_env;
     http_get := fun _ => Some (200%nat, []);
     b64decode := b64decode example_env;
     sf_read := sf_read example_env;
     tmp_create_ok := fun _ => true;
     tmp_write_ok := fun _ => true |}.

(* ------------------------------------------------------------------ *)
(** * Properties *)

(** ** Comparisons *)

Lemma Qltb_lt (x y : Q) : Qltb x y = true <-> x < y.
Proof.
  unfold Qltb. rewrite negb_true_iff, <- not_true_iff_false, Qle_bool_iff.
  split; [apply Qnot_le_lt | apply Qlt_not_le].
Qed.

Lemma Qltb_ge (x y : Q) : Qltb x y = false <-> y <= x.
Proof.
  unfold Qltb. rewrite negb_false_iff. apply Qle_bool_iff.
Qed.

Lemma flt_lt (a : pyfloat) (b : Q) :
  flt a b = true <-> exists x, a = Fin x /\ x < b.
Proof.
  destruct a as [x|]; simpl.
  - rewrite Qltb_lt. split; [eauto | intros (y & [= ->] & H); exact H].
  - split; [discriminate | intros (y & [=] & _)].
Qed.

(** ** The classifier *)

(** C3. The classifier starts from 0.5, adds 0.2 with the reason "uniform
    waveform structure" when the peak density is below 0.01 and 0.2 with
    the reason "low zero-crossing rate" when the zero-crossing rate is below
    0.05; the confidence is min(score, 1.0) rounded to two decimals (a
    multiple of 1/100 within 1/200 of it); the label is "AI Generated"
    exactly when the confidence is above 0.55 and "Human" exactly when it is
    at most 0.55. *)
Theorem analyze_scoring_rule (features : FeatureVector) (lang : string) :
  let uniform := flt (peak_density features) 0.01 in
  let low_zcr := flt (zcr features) 0.05 in
  let score := 0.5 + (if uniform then 0.2 else 0) + (if low_zcr then 0.2 else 0) in
  let reasons :=
    ((if uniform then ["uniform waveform structure"] else []) ++
     (if low_zcr then ["low zero-crossing rate"] else []))%list in
  let r := analyze features lang in
  confidence r = py_round2 (py_min score 1.0)
  /\ (exists k : Z, confidence r == inject_Z k / 100)
  /\ Qabs (confidence r - Qmin score 1) <= 1 # 200
  /\ (classification r = "AI Generated" <-> 0.55 < confidence r)
  /\ (classification r = "Human" <-> confidence r <= 0.55)
  /\ explanation r =
       "Analysis suggests " ++ lower (classification r) ++ " voice: " ++ join ", " reasons
  /\ resp_language r = lang.
Proof.
  unfold analyze.
  destruct (flt (peak_density features) 0.01), (flt (zcr features) 0.05); cbn zeta.
  - split; [reflexivity|]. split; [exists 90%Z; reflexivity|].
    repeat split; try reflexivity; try discriminate; vm_compute; congruence.
  - split; [reflexivity|]. split; [exists 70%Z; reflexivity|].
    repeat split; try reflexivity; try discriminate; vm_compute; congruence.
  - split; [reflexivity|]. split; [exists 70%Z; reflexivity|].
    repeat split; try reflexivity; try discriminate; vm_compute; congruence.
  - split; [reflexivity|]. split; [exists 50%Z; reflexivity|].
    repeat split; try reflexivity; try discriminate; vm_compute; congruence.
Qed.

(** ** Array helpers *)

Lemma Forall_map_of {A B : Type} (f : A -> B) (P : A -> Prop) (R : B -> Prop)
      (l : list A) :
  (forall x, P x -> R (f x)) -> Forall P l -> Forall R (map f l).
Proof.
  intros H. induction 1; cbn [map]; constructor; auto.
Qed.

Lemma len_cons (x : Q) (l : list Q) : len (x :: l) == 1 + len l.
Proof.
  unfold len. cbn [length]. rewrite Nat2Z.inj_succ, <- Z.add_1_l, inject_Z_plus.
  reflexivity.
Qed.

Lemma len_nonneg (l : list Q) : 0 <= len l.
Proof.
  unfold len. change 0 with (inject_Z 0). rewrite <- Zle_Qle. lia.
Qed.

Lemma len_pos (x : Q) (l : list Q) : 0 < len (x :: l).
Proof.
  rewrite len_cons. pose proof (len_nonneg l). lra.
Qed.

Lemma np_sum_zero (l : list Q) : Forall (fun x => x == 0) l -> np_sum l == 0.
Proof.
  induction 1 as [|x l Hx _ IH]; cbn [np_sum fold_right].
  - reflexivity.
  - fold (np_sum l). rewrite Hx, IH. reflexivity.
Qed.

Lemma np_sum_squares_constant (c : Q) (l : list Q) :
  Forall (fun x => x == c) l ->
  np_sum (map (fun x => x * x) l) == len l * (c * c).
Proof.
  induction 1 as [|x l Hx _ IH].
  - reflexivity.
  - cbn [map np_sum fold_right]. fold (np_sum (map (fun x => x * x) l)).
    rewrite IH, len_cons, Hx. ring.
Qed.

Lemma np_sign_eq (x y : Q) : x == y -> np_sign x = np_sign y.
Proof.
  intros H. unfold np_sign. rewrite H. reflexivity.
Qed.

Lemma np_sign_zero (x : Q) : x == 0 -> np_sign x = 0.
Proof.
  intros H. rewrite (np_sign_eq x 0 H). reflexivity.
Qed.

Lemma np_diff_length (l : list Q) : length (np_diff l) = (length l - 1)%nat.
Proof.
  induction l as [|x [|y l] IH]; try reflexivity.
  change (np_diff (x :: y :: l)) with ((y - x) :: np_diff (y :: l)).
  cbn [length] in *. lia.
Qed.

Lemma np_diff_constant (s : Q) (l : list Q) :
  Forall (fun x => x = s) l -> Forall (fun d => d == 0) (np_diff l).
Proof.
  induction l as [|x [|y l] IH]; intros H; try constructor.
  - inversion H as [|? ? -> H']; subst. inversion H' as [|? ? -> _]; subst.
    ring.
  - apply IH. inversion H; assumption.
Qed.

Lemma local_maxima_constant (c prev : Q) (l : list Q) :
  prev == c -> Forall (fun x => x == c) l -> local_maxima prev l = [].
Proof.
  intros Hp H. revert prev Hp.
  induction H as [|x l Hx _ IH]; intros prev Hp; cbn [local_maxima].
  - reflexivity.
  - assert (Qltb prev x = false) as -> by (apply Qltb_ge; rewrite Hx, Hp; apply Qle_refl).
    cbn [andb]. apply IH, Hx.
Qed.

Lemma find_peaks_constant (c : Q) (l : list Q) (h : root) :
  Forall (fun x => x == c) l -> find_peaks l h = [].
Proof.
  intros H. destruct H as [|x l Hx H]; [reflexivity|].
  cbn [find_peaks]. rewrite (local_maxima_constant c x l Hx H). reflexivity.
Qed.

(** ** Constant waveforms *)

Lemma np_mean_nonempty (l : list Q) :
  l <> [] -> np_mean l = Fin (np_sum l / len l).
Proof.
  destruct l; [congruence | reflexivity].
Qed.

Lemma waveform_features_nonempty (w : list Q) :
  w <> [] ->
  waveform_features w =
  inr {| energy := np_mean (map (fun x => x * x) w);
         zcr := np_mean (map Qabs (np_diff (map np_sign w)));
         peak_density :=
           Fin (inject_Z (Z.of_nat (length (find_peaks (map Qabs w) (np_std w))))
                / len w) |}.
Proof.
  destruct w; [congruence | reflexivity].
Qed.

Lemma len_map (f : Q -> Q) (l : list Q) : len (map f l) = len l.
Proof.
  unfold len. rewrite length_map. reflexivity.
Qed.

Lemma len_pos_nonempty (l : list Q) : l <> [] -> 0 < len l.
Proof.
  destruct l; [congruence | intros _; apply len_pos].
Qed.

Lemma features_of_constant (w : list Q) (c : Q) :
  (2 <= length w)%nat ->
  Forall (fun x => x == c) w ->
  exists f, waveform_features w = inr f
            /\ feq (energy f) (Fin (c * c))
            /\ feq (zcr f) (Fin 0)
            /\ feq (peak_density f) (Fin 0).
Proof.
  intros Hn Hc.
  assert (Hne : w <> []) by (intros ->; cbn in Hn; lia).
  pose proof (len_pos_nonempty w Hne) as Hlen.
  eexists. split; [apply waveform_features_nonempty, Hne|].
  cbn [energy zcr peak_density]. split; [|split].
  - rewrite np_mean_nonempty by (destruct w; [congruence | discriminate]).
    cbn [feq]. rewrite (np_sum_squares_constant c w Hc), len_map. field. lra.
  - assert (Hs : Forall (fun s => s = np_sign c) (map np_sign w)).
    { apply (Forall_map_of _ _ _ _ (fun a Ha => np_sign_eq a c Ha) Hc). }
    pose proof (np_diff_constant _ _ Hs) as Hd.
    pose proof (np_diff_length (map np_sign w)) as Hl. rewrite length_map in Hl.
    assert (Ha : Forall (fun d => d == 0) (map Qabs (np_diff (map np_sign w)))).
    { refine (Forall_map_of _ _ _ _ _ Hd). intros a Ha. rewrite Ha. reflexivity. }
    destruct (map Qabs (np_diff (map np_sign w))) as [|d ds] eqn:Ed.
    + apply (f_equal (@length Q)) in Ed. rewrite length_map, Hl in Ed. cbn in Ed. lia.
    + cbn [np_mean feq]. rewrite (np_sum_zero _ Ha).
      pose proof (len_pos d ds). field. lra.
  - rewrite (find_peaks_constant (Qabs c) (map Qabs w)).
    + cbn [length feq]. change (inject_Z (Z.of_nat 0)) with 0. field. lra.
    + refine (Forall_map_of _ _ _ _ _ Hc). intros a Ha. rewrite Ha. reflexivity.
Qed.

Lemma flt_of_feq (a : pyfloat) (x b : Q) : feq a (Fin x) -> x < b -> flt a b = true.
Proof.
  destruct a as [y|]; cbn [feq flt]; [|tauto].
  intros Hy Hx. apply Qltb_lt. rewrite Hy. exact Hx.
Qed.

(** C2, as amended.  A constant waveform of at least two samples, all
    equal to [c], is processed without an exception; its zero-crossing rate
    and its peak density are 0; its energy is not negative, it is 0 when
    the samples are 0, and for 16-bit audio it is the square of [c]. *)
Theorem constant_waveform_features (w : list Q) (c : Q) :
  (2 <= length w)%nat ->
  Forall (fun x => x == c) w ->
  exists f, waveform_features w = inr f
            /\ feq (zcr f) (Fin 0)
            /\ feq (peak_density f) (Fin 0)
            /\ (exists e, energy f = Fin e /\ 0 <= e)
            /\ (c == 0 -> feq (energy f) (Fin 0))
            /\ (pcm16 w = true -> feq (energy f) (Fin (c * c))).
Proof.
  intros Hn Hc.
  destruct (features_of_constant w c Hn Hc) as (f & Hf & He & Hz & Hp).
  exists f. repeat split; try assumption.
  - destruct (energy f) as [e|]; cbn [feq] in He; [|contradiction].
    exists e. split; [reflexivity|]. rewrite He. nra.
  - intros H0. destruct (energy f) as [e|]; cbn [feq] in *; [|contradiction].
    rewrite He, H0. reflexivity.
  - intros _. exact He.
Qed.

Lemma constant_waveform_features_witness :
  (2 <= length [0.5; 0.5; 0.5]%Q)%nat
  /\ Forall (fun x => x == 0.5) [0.5; 0.5; 0.5]
  /\ pcm16 [0.5; 0.5; 0.5] = true
  /\ exists f, waveform_features [0.5; 0.5; 0.5] = inr f
            /\ feq (zcr f) (Fin 0)
            /\ feq (peak_density f) (Fin 0)
            /\ (exists e, energy f = Fin e /\ 0 <= e)
            /\ (0.5 == 0 -> feq (energy f) (Fin 0))
            /\ (pcm16 [0.5; 0.5; 0.5] = true -> feq (energy f) (Fin (0.5 * 0.5))).
Proof.
  assert (Hn : (2 <= length [0.5; 0.5; 0.5]%Q)%nat) by (cbn [length]; lia).
  assert (Hc : Forall (fun x => x == 0.5) [0.5; 0.5; 0.5]) by (repeat constructor).
  split; [exact Hn|]. split; [exact Hc|]. split; [reflexivity|].
  exact (constant_waveform_features [0.5; 0.5; 0.5] 0.5 Hn Hc).
Defined.

(** C2, as stated, fails.  A constant waveform with a non-zero sample has a
    non-zero energy, and the empty waveform makes the extraction raise. *)
Lemma degenerate_waveform_counterexample :
  Forall (fun x => x == 0.5) [0.5; 0.5]
  /\ (exists f, waveform_features [0.5; 0.5] = inr f /\ ~ feq (energy f) (Fin 0))
  /\ waveform_features [] = inl ZeroDivisionError.
Proof.
  split; [repeat constructor|]. split; [|reflexivity].
  eexists. split; [reflexivity|]. cbn. discriminate.
Qed.

(** C5, as amended.  An all-zero waveform of at least two samples has
    peak density 0 and zero-crossing rate 0, both bonus conditions hold, and
    the classifier answers "AI Generated" with confidence 0.9 and both
    reasons. *)
Theorem silent_waveform_verdict (w : list Q) (lang : string) :
  (2 <= length w)%nat ->
  Forall (fun x => x == 0) w ->
  exists f, waveform_features w = inr f
            /\ feq (peak_density f) (Fin 0)
            /\ feq (zcr f) (Fin 0)
            /\ flt (peak_density f) 0.01 = true
            /\ flt (zcr f) 0.05 = true
            /\ confidence (analyze f lang) == 0.9
            /\ classification (analyze f lang) = "AI Generated"
            /\ explanation (analyze f lang) =
                 "Analysis suggests ai generated voice: uniform waveform structure, low zero-crossing rate".
Proof.
  intros Hn Hz.
  destruct (features_of_constant w 0 Hn Hz) as (f & Hf & _ & Hzc & Hp).
  assert (H1 : flt (peak_density f) 0.01 = true) by (apply (flt_of_feq _ 0); [exact Hp | reflexivity]).
  assert (H2 : flt (zcr f) 0.05 = true) by (apply (flt_of_feq _ 0); [exact Hzc | reflexivity]).
  exists f. repeat split; try assumption; unfold analyze; rewrite H1, H2; reflexivity.
Qed.

Lemma silent_waveform_verdict_witness :
  (2 <= length [0; 0; 0]%Q)%nat
  /\ Forall (fun x => x == 0) [0; 0; 0]
  /\ exists f, waveform_features [0; 0; 0] = inr f
            /\ feq (peak_density f) (Fin 0)
            /\ feq (zcr f) (Fin 0)
            /\ flt (peak_density f) 0.01 = true
            /\ flt (zcr f) 0.05 = true
            /\ confidence (analyze f "English") == 0.9
            /\ classification (analyze f "English") = "AI Generated"
            /\ explanation (analyze f "English") =
                 "Analysis suggests ai generated voice: uniform waveform structure, low zero-crossing rate".
Proof.
  assert (Hn : (2 <= length [0; 0; 0]%Q)%nat) by (cbn [length]; lia).
  assert (Hz : Forall (fun x => x == 0) [0; 0; 0]) by (repeat constructor).
  split; [exact Hn|]. split; [exact Hz|].
  exact (silent_waveform_verdict [0; 0; 0] "English" Hn Hz).
Defined.

(** C5, as stated, fails.  The one-sample silent waveform has no first
    difference: its zero-crossing rate is nan, only one bonus is added and
    the confidence is 0.7. *)
Lemma single_silent_sample_counterexample :
  Forall (fun x => x == 0) [0]
  /\ exists f, waveform_features [0] = inr f
               /\ zcr f = NaN
               /\ flt (zcr f) 0.05 = false
               /\ confidence (analyze f "English") == 0.7
               /\ ~ confidence (analyze f "English") == 0.9.
Proof.
  split; [repeat constructor|].
  eexists. split; [reflexivity|]. repeat split; discriminate.
Qed.


(** ** Sums over indices *)




Lemma np_sign_spec (x : Q) : Spec.sign_of x (np_sign x).
Proof.
  unfold Spec.sign_of, np_sign.
  destruct (x ?= 0)%Q eqn:E.
  - right; left. split; [apply Qeq_alt, E | reflexivity].
  - left. split; [apply Qlt_alt, E | reflexivity].
  - right; right. split; [apply Qgt_alt, E | reflexivity].
Qed.

(** ** Local maxima, by index *)






(** ** The features of a waveform *)

Lemma pcm16_sample_spec (x : Q) :
  pcm16_sample x = true <->
  exists k : Z, (-32768 <= k < 32768)%Z /\ x == inject_Z k / 32768.
Proof.
  unfold pcm16_sample. rewrite !andb_true_iff, Qle_bool_iff, Qltb_lt, Qeq_bool_iff.
  split.
  - intros [[Hlo Hhi] Heq]. exists (Qfloor (x * 32768)). split.
    + split; [rewrite Zle_Qle | rewrite Zlt_Qlt]; rewrite Heq.
      * change (inject_Z (-32768)) with (-32768). lra.
      * change (inject_Z 32768) with 32768. lra.
    + rewrite Heq. field.
  - intros (k & [Hlo Hhi] & Hx).
    rewrite Zle_Qle in Hlo. rewrite Zlt_Qlt in Hhi.
    change (inject_Z (-32768)) with (-32768) in Hlo.
    change (inject_Z 32768) with 32768 in Hhi.
    assert (Hk : x * 32768 == inject_Z k) by (rewrite Hx; field).
    repeat split; [lra | lra |].
    rewrite (Qfloor_comp _ _ Hk), Qfloor_Z, Hk. reflexivity.
Qed.






(** ** The helpers, step by step *)

Lemma fresh_not_in_files (w : World) : files w !! fresh (dom (files w)) = None.
Proof.
  apply not_elem_of_dom_1, is_fresh.
Qed.

Lemma create_then_write (env : Env) (sfx : string) (data : list Byte.byte) (w : World) :
  bind (NamedTemporaryFile env sfx)
       (fun tmp => bind (write_close env tmp data) (fun _ => ret tmp)) w =
  if tmp_create_ok env sfx then
    if tmp_write_ok env data
    then (inr (fresh (dom (files w))), stored w sfx data)
    else (inl OSError, touched w sfx)
  else (inl OSError, w).
Proof.
  unfold bind, NamedTemporaryFile, write_close, ret.
  destruct (tmp_create_ok env sfx); [|reflexivity].
  destruct (tmp_write_ok env data); [|reflexivity].
  unfold stored. cbn [files fetched created unlinked].
  rewrite alter_insert_eq. reflexivity.
Qed.

Lemma save_base64_audio_run (env : Env) (data : string) (fmt : option string) (w : World) :
  save_base64_audio env data fmt w =
  match b64decode env data with
  | None => (inl (ValueError "Invalid base64 audio"), w)
  | Some b =>
      if tmp_create_ok env (suffix_of fmt) then
        if tmp_write_ok env b
        then (inr (fresh (dom (files w))), stored w (suffix_of fmt) b)
        else (inl (ValueError "Invalid base64 audio"), touched w (suffix_of fmt))
      else (inl (ValueError "Invalid base64 audio"), w)
  end.
Proof.
  unfold save_base64_audio, try_except. fold (suffix_of fmt).
  destruct (b64decode env data) as [b|]; [|reflexivity].
  change (bind (ret b) ?k w) with (k b w). cbn beta.
  rewrite create_then_write.
  destruct (tmp_create_ok env (suffix_of fmt)); [|reflexivity].
  destruct (tmp_write_ok env b); reflexivity.
Qed.

Lemma download_audio_run (env : Env) (url : string) (w : World) :
  download_audio env url w =
  match http_get env url with
  | None => (inl TransportError, requested w url)
  | Some (status, body) =>
      if negb (status =? 200)%nat
      then (inl (HTTPException 400 "Failed to download audio"), requested w url)
      else if tmp_create_ok env ".wav" then
             if tmp_write_ok env body
             then (inr (fresh (dom (files w))), stored (requested w url) ".wav" body)
             else (inl OSError, touched (requested w url) ".wav")
           else (inl OSError, requested w url)
  end.
Proof.
  unfold download_audio. unfold bind at 1. unfold client_get. fold (requested w url).
  destruct (http_get env url) as [[status body]|]; [|reflexivity].
  cbn [fst snd]. destruct (negb (status =? 200)%nat); [reflexivity|].
  exact (create_then_write env ".wav" body (requested w url)).
Qed.

Lemma extract_features_stored (env : Env) (sfx : string) (data : list Byte.byte) (w : World) :
  extract_features env (fresh (dom (files w))) (stored w sfx data) =
  (match sf_read env {| suffix := sfx; content := data |} with
   | None => inl LibsndfileError
   | Some audio => waveform_features (to_mono audio)
   end, stored w sfx data).
Proof.
  unfold extract_features, stored. cbn [files]. rewrite lookup_insert_eq.
  destruct (sf_read env _); reflexivity.
Qed.

Lemma cleanup_stored (sfx : string) (data : list Byte.byte) (w : World) :
  cleanup {| path := Some (fresh (dom (files w))); world := stored w sfx data |} =
  (inr tt, {| path := Some (fresh (dom (files w))); world := released w |}).
Proof.
  unfold cleanup, in_world, bind, path_exists, os_unlink, stored, released.
  cbn [path world files fetched created unlinked].
  rewrite lookup_insert_eq.
  rewrite bool_decide_eq_true_2 by (eexists; reflexivity).
  cbn [files fetched created unlinked]. rewrite lookup_insert_eq.
  cbn [files fetched created unlinked].
  rewrite delete_insert_id by apply fresh_not_in_files. reflexivity.
Qed.

Lemma cleanup_no_path (w : World) :
  cleanup {| path := None; world := w |} = (inr tt, {| path := None; world := w |}).
Proof. reflexivity. Qed.

(** ** The route, branch by branch *)

Lemma predict_inline_run (env : Env) (req : AudioRequest) (c : ascii) (d : string)
      (w : World) :
  truthy (audio_url req) = false ->
  audioBase64 req = Some (String c d) ->
  predict env req w =
  let lang := or_default (language req) "English" in
  let sfx := suffix_of (audioFormat req) in
  match b64decode env (String c d) with
  | None => (inr (fallback lang), w)
  | Some b =>
      if tmp_create_ok env sfx then
        if tmp_write_ok env b then
          (match sf_read env {| suffix := sfx; content := b |} with
           | None => inr (fallback lang)
           | Some audio =>
               match waveform_features (to_mono audio) with
               | inl _ => inr (fallback lang)
               | inr f => inr (analyze f lang)
               end
           end, released w)
        else (inr (fallback lang), touched w sfx)
      else (inr (fallback lang), w)
  end.
Proof.
  intros Hurl Hdata. unfold predict.
  assert (Hbody : match audio_url req with
                  | Some (String c0 u) => url_path env req (String c0 u)
                  | _ =>
                      match audioBase64 req with
                      | Some (String c0 d0) =>
                          try_except (inline_path env req (String c0 d0))
                            (fun _ => ret (fallback (or_default (language req) "English")))
                      | _ => raise (HTTPException 422 "audio_url or audioBase64 required")
                      end
                  end =
                  try_except (inline_path env req (String c d))
                    (fun _ => ret (fallback (or_default (language req) "English")))).
  { rewrite Hdata. destruct (audio_url req) as [[|c0 u]|]; try reflexivity. discriminate. }
  rewrite Hbody. clear Hbody.
  unfold try_finally, try_except, inline_path. unfold bind at 1. unfold assign_path.
  cbn [world path]. rewrite save_base64_audio_run.
  destruct (b64decode env (String c d)) as [b|]; [|reflexivity].
  cbn zeta. destruct (tmp_create_ok env (suffix_of (audioFormat req))); [|reflexivity].
  destruct (tmp_write_ok env b); [|reflexivity].
  unfold bind, in_world. cbn [world path]. rewrite extract_features_stored.
  destruct (sf_read env _) as [audio|].
  - destruct (waveform_features (to_mono audio)) as [e|f]; unfold ret;
      rewrite cleanup_stored; reflexivity.
  - unfold ret. rewrite cleanup_stored. reflexivity.
Qed.

Lemma predict_url_run (env : Env) (req : AudioRequest) (c : ascii) (u : string)
      (w : World) :
  audio_url req = Some (String c u) ->
  predict env req w =
  let url := String c u in
  let lang := or_default (language req) "English" in
  match urlparse env url with
  | InvalidURL msg => (inl (ValueError msg), w)
  | Scheme scheme =>
      if negb (String.eqb scheme "http" || String.eqb scheme "https")
      then (inl (HTTPException 400 "Invalid audio URL"), w)
      else
        match http_get env url with
        | None => (inl TransportError, requested w url)
        | Some (status, body) =>
            if negb (status =? 200)%nat
            then (inl (HTTPException 400 "Failed to download audio"), requested w url)
            else if tmp_create_ok env ".wav" then
                   if tmp_write_ok env body then
                     (match sf_read env {| suffix := ".wav"; content := body |} with
                      | None => inl LibsndfileError
                      | Some audio =>
                          match waveform_features (to_mono audio) with
                          | inl e => inl e
                          | inr f => inr (analyze f lang)
                          end
                      end, released (requested w url))
                   else (inl OSError, touched (requested w url) ".wav")
                 else (inl OSError, requested w url)
        end
  end.
Proof.
  intros Hurl. unfold predict. rewrite Hurl. cbn zeta.
  unfold try_finally, url_path. unfold bind at 1.
  destruct (urlparse env (String c u)) as [scheme|msg]; [|reflexivity].
  unfold ret at 1.
  destruct (negb (String.eqb scheme "http" || String.eqb scheme "https")); [reflexivity|].
  unfold bind at 1. unfold assign_path. cbn [world path]. rewrite download_audio_run.
  destruct (http_get env (String c u)) as [[status body]|]; [|reflexivity].
  destruct (negb (status =? 200)%nat); [reflexivity|].
  destruct (tmp_create_ok env ".wav"); [|reflexivity].
  destruct (tmp_write_ok env body); [|reflexivity].
  unfold bind, in_world. cbn [world path].
  change (fresh (dom (files w))) with (fresh (dom (files (requested w (String c u))))).
  rewrite (extract_features_stored env ".wav" body (requested w (String c u))).
  destruct (sf_read env _) as [audio|].
  - destruct (waveform_features (to_mono audio)) as [e|f]; unfold ret, raise;
      rewrite (cleanup_stored ".wav" body (requested w (String c u))); reflexivity.
  - rewrite (cleanup_stored ".wav" body (requested w (String c u))). reflexivity.
Qed.

Lemma predict_no_input_run (env : Env) (req : AudioRequest) (w : World) :
  truthy (audio_url req) = false ->
  truthy (audioBase64 req) = false ->
  predict env req w = (inl (HTTPException 422 "audio_url or audioBase64 required"), w).
Proof.
  intros Hu Hb. unfold predict.
  destruct (audio_url req) as [[|c u]|]; try discriminate;
    destruct (audioBase64 req) as [[|c' d]|]; try discriminate; reflexivity.
Qed.

Lemma truthy_true (s : option string) :
  truthy s = true -> exists c r, s = Some (String c r).
Proof.
  destruct s as [[|c r]|]; try discriminate. eauto.
Qed.

Lemma analyze_language (f : FeatureVector) (lang : string) :
  resp_language (analyze f lang) = lang.
Proof.
  unfold analyze.
  destruct (flt (peak_density f) 0.01), (flt (zcr f) 0.05); reflexivity.
Qed.

Lemma analyze_confidence (f : FeatureVector) (lang : string) :
  confidence (analyze f lang) == 0.5 \/
  confidence (analyze f lang) == 0.7 \/
  confidence (analyze f lang) == 0.9.
Proof.
  unfold analyze.
  destruct (flt (peak_density f) 0.01), (flt (zcr f) 0.05); cbn zeta;
    [right; right | right; left | right; left | left]; reflexivity.
Qed.

Lemma analyze_not_fallback (f : FeatureVector) (lang lang' : string) :
  analyze f lang <> fallback lang'.
Proof.
  intros H. apply (f_equal confidence) in H.
  destruct (analyze_confidence f lang) as [E|[E|E]]; rewrite H in E; discriminate E.
Qed.

(** Every answer of the route is a verdict of the classifier or, on the
    inline path only, the fallback. *)
Lemma predict_responds (env : Env) (req : AudioRequest) (w w' : World)
      (r : PredictionResponse) :
  predict env req w = (inr r, w') ->
  (exists f, r = analyze f (or_default (language req) "English"))
  \/ (truthy (audio_url req) = false /\ truthy (audioBase64 req) = true
      /\ r = fallback (or_default (language req) "English")).
Proof.
  intros H. destruct (truthy (audio_url req)) eqn:Hu.
  - destruct (truthy_true _ Hu) as (c & u & Eu).
    rewrite (predict_url_run env req c u w Eu) in H. cbn zeta in H.
    repeat match type of H with
           | context [match ?x with _ => _ end] => destruct x
           end; inversion H; subst; eauto.
  - destruct (truthy (audioBase64 req)) eqn:Hb.
    + destruct (truthy_true _ Hb) as (c & d & Ed).
      rewrite (predict_inline_run env req c d w Hu Ed) in H. cbn zeta in H.
      repeat match type of H with
             | context [match ?x with _ => _ end] => destruct x
             end; inversion H; subst; eauto.
    + rewrite (predict_no_input_run env req w Hu Hb) in H. discriminate.
Qed.

(** ** The inline path and its fallback *)

Lemma inline_failure_run (env : Env) (req : AudioRequest) (c : ascii) (d : string)
      (w : World) :
  truthy (audio_url req) = false ->
  audioBase64 req = Some (String c d) ->
  inline_step_fails env req (String c d) ->
  fst (predict env req w) = inr (fallback (or_default (language req) "English")).
Proof.
  intros Hu Hd Hfail. rewrite (predict_inline_run env req c d w Hu Hd). cbn zeta.
  destruct Hfail as [H1 | b H1 H2 | b H1 H2 H3 | b H1 H2 H3 H4 | b audio e H1 H2 H3 H4 H5];
    rewrite H1; try rewrite H2; try rewrite H3; try rewrite H4; try rewrite H5;
    reflexivity.
Qed.

(** C1. On the inline path (no usable [audio_url], a non-empty
    [audioBase64]), when a step fails - the base64 decoding, the creation or
    the writing of the file, the audio decoding, the feature extraction -
    the route returns the fixed fallback with the requested language or the
    default, and the caller gets it with status 200: no error is surfaced. *)
Theorem inline_failure_gives_fallback (env : Env) (req : AudioRequest)
        (data : string) (w : World) :
  truthy (audio_url req) = false ->
  audioBase64 req = Some data ->
  data <> "" ->
  inline_step_fails env req data ->
  fst (predict env req w) =
    inr {| classification := "AI Generated";
           confidence := 0.71;
           resp_language := or_default (language req) "English";
           explanation :=
             "Analysis suggests ai generated voice: consistent spectral properties" |}
  /\ handler (fst (predict env req w)) =
       Ok200 (fallback (or_default (language req) "English")).
Proof.
  intros Hu Hd Hne Hfail. destruct data as [|c d]; [congruence|].
  rewrite (inline_failure_run env req c d w Hu Hd Hfail). split; reflexivity.
Qed.

Lemma inline_failure_gives_fallback_witness :
  inline_step_fails example_env (inline_request "not-base64-!!" (Str "Tamil"))
                    "not-base64-!!"
  /\ fst (predict example_env (inline_request "not-base64-!!" (Str "Tamil")) empty_world) =
    inr {| classification := "AI Generated";
           confidence := 0.71;
           resp_language := "Tamil";
           explanation :=
             "Analysis suggests ai generated voice: consistent spectral properties" |}
  /\ handler (fst (predict example_env (inline_request "not-base64-!!" (Str "Tamil"))
                           empty_world)) =
       Ok200 (fallback "Tamil").
Proof.
  assert (Hfail : inline_step_fails example_env
                    (inline_request "not-base64-!!" (Str "Tamil")) "not-base64-!!")
    by (apply base64_decoding_fails; reflexivity).
  split; [exact Hfail|].
  apply (inline_failure_gives_fallback example_env
           (inline_request "not-base64-!!" (Str "Tamil")) "not-base64-!!" empty_world).
  - reflexivity.
  - reflexivity.
  - discriminate.
  - exact Hfail.
Defined.

(** The steps named in [inline_step_fails] are the only ones that make the
    inline path raise. *)
Lemma inline_path_raises_iff (env : Env) (req : AudioRequest) (data : string)
      (w : World) :
  (exists e, fst (inline_path env req data {| path := None; world := w |}) = inl e)
  <-> inline_step_fails env req data.
Proof.
  unfold inline_path. unfold bind at 1. unfold assign_path. cbn [world path fst].
  rewrite save_base64_audio_run. split.
  - intros (e & He).
    destruct (b64decode env data) as [b|] eqn:H1; [|now apply base64_decoding_fails].
    destruct (tmp_create_ok env (suffix_of (audioFormat req))) eqn:H2;
      [|now apply (file_creation_fails env req data b)].
    destruct (tmp_write_ok env b) eqn:H3;
      [|now apply (file_writing_fails env req data b)].
    unfold bind, in_world in He. cbn [world path] in He.
    rewrite extract_features_stored in He.
    destruct (sf_read env _) as [audio|] eqn:H4;
      [|now apply (audio_decoding_fails env req data b)].
    destruct (waveform_features (to_mono audio)) as [e'|f] eqn:H5;
      [now apply (feature_extraction_fails env req data b audio e')|].
    discriminate He.
  - intros [H1 | b H1 H2 | b H1 H2 H3 | b H1 H2 H3 H4 | b audio e H1 H2 H3 H4 H5];
      rewrite H1; try rewrite H2; try rewrite H3; try (eexists; reflexivity);
      unfold bind, in_world; cbn [world path]; rewrite extract_features_stored;
      rewrite H4; try rewrite H5; eexists; reflexivity.
Qed.

(** ** Temporary files *)

(** C6 fails when the disk rejects a write.  The payload decodes and the
    temporary file is created, the write raises inside the helper, so the
    path never reaches [predict]: nothing is unlinked and the file stays. *)
Theorem temp_file_left_after_failed_write :
  let w' := snd (predict disk_full_env (inline_request "AAAA" Omitted) empty_world) in
  handler (fst (predict disk_full_env (inline_request "AAAA" Omitted) empty_world)) =
    Ok200 (fallback "English")
  /\ created w' = [1%positive]
  /\ unlinked w' = []
  /\ files w' !! 1%positive = Some {| suffix := ".wav"; content := [] |}
  /\ size (files w') = 1%nat.
Proof.
  vm_compute. repeat split; reflexivity.
Qed.

(** When every write goes through, a request creates at most one temporary
    file, unlinks what it created, once, and leaves the directory as it
    found it. *)
Lemma temp_files_released (env : Env) (req : AudioRequest) (w : World) :
  (forall data, tmp_write_ok env data = true) ->
  let w' := snd (predict env req w) in
  files w' = files w
  /\ ((created w' = created w /\ unlinked w' = unlinked w)
      \/ (exists p, files w !! p = None
                    /\ created w' = p :: created w
                    /\ unlinked w' = p :: unlinked w)).
Proof.
  intros Hw. cbn zeta.
  assert (Hrel : forall w0 : World,
             files (released w0) = files w0 /\
             exists p, files w0 !! p = None
                       /\ created (released w0) = p :: created w0
                       /\ unlinked (released w0) = p :: unlinked w0).
  { intros w0. split; [reflexivity|]. exists (fresh (dom (files w0))).
    split; [apply fresh_not_in_files | split; reflexivity]. }
  destruct (truthy (audio_url req)) eqn:Hu.
  - destruct (truthy_true _ Hu) as (c & u & Eu).
    rewrite (predict_url_run env req c u w Eu). cbn zeta.
    destruct (urlparse env (String c u)) as [scheme|msg]; [|cbn [snd]; auto].
    destruct (negb _); [cbn [snd]; auto|].
    destruct (http_get env (String c u)) as [[status body]|]; [|cbn [snd]; auto].
    destruct (negb _); [cbn [snd]; auto|].
    destruct (tmp_create_ok env ".wav"); [|cbn [snd]; auto].
    rewrite Hw. cbn [snd].
    destruct (Hrel (requested w (String c u))) as (Hf & p & Hp & Hc & Hun).
    split; [exact Hf|]. right. exists p. auto.
  - destruct (truthy (audioBase64 req)) eqn:Hb.
    + destruct (truthy_true _ Hb) as (c & d & Ed).
      rewrite (predict_inline_run env req c d w Hu Ed). cbn zeta.
      destruct (b64decode env (String c d)) as [b|]; [|cbn [snd]; auto].
      destruct (tmp_create_ok env _); [|cbn [snd]; auto].
      rewrite Hw. cbn [snd].
      destruct (Hrel w) as (Hf & p & Hp & Hc & Hun).
      split; [exact Hf|]. right. exists p. auto.
    + rewrite (predict_no_input_run env req w Hu Hb). cbn [snd]. auto.
Qed.

(** ** The URL path *)

(** X21. A request whose [audio_url] is not empty and for which urlparse
    gives a scheme other than http and https (the empty scheme of a URL
    without one included) is rejected with the 400 error "Invalid audio
    URL"; the world is left as it was: nothing was fetched and no file was
    created. *)
Theorem other_scheme_rejected (env : Env) (req : AudioRequest) (url scheme : string)
        (w : World) :
  audio_url req = Some url ->
  url <> "" ->
  urlparse env url = Scheme scheme ->
  scheme <> "http" ->
  scheme <> "https" ->
  predict env req w = (inl (HTTPException 400 "Invalid audio URL"), w)
  /\ handler (fst (predict env req w)) = ErrorBody 400 "Invalid audio URL"
  /\ fetched (snd (predict env req w)) = fetched w
  /\ created (snd (predict env req w)) = created w.
Proof.
  intros Hu Hne Hp H1 H2. destruct url as [|c u]; [congruence|].
  rewrite (predict_url_run env req c u w Hu). cbn zeta. rewrite Hp.
  apply String.eqb_neq in H1, H2. rewrite H1, H2. cbn [orb negb fst snd handler].
  repeat split.
Qed.

Lemma other_scheme_rejected_witness :
  urlparse example_env "ftp://host/file" = Scheme "ftp"
  /\ predict example_env (url_request "ftp://host/file" Omitted) empty_world =
       (inl (HTTPException 400 "Invalid audio URL"), empty_world)
  /\ handler (fst (predict example_env (url_request "ftp://host/file" Omitted) empty_world)) =
       ErrorBody 400 "Invalid audio URL"
  /\ fetched (snd (predict example_env (url_request "ftp://host/file" Omitted) empty_world)) =
       fetched empty_world
  /\ created (snd (predict example_env (url_request "ftp://host/file" Omitted) empty_world)) =
       created empty_world.
Proof.
  split; [reflexivity|].
  apply (other_scheme_rejected example_env (url_request "ftp://host/file" Omitted)
           "ftp://host/file" "ftp" empty_world).
  - reflexivity.
  - discriminate.
  - reflexivity.
  - discriminate.
  - discriminate.
Defined.

(** C7 fails on a URL that urlparse does not accept.  The scheme of
    "ftp://[host/file" is ftp, but its host opens a square bracket that is
    never closed: urlparse raises ValueError before the scheme is compared,
    [predict] does not catch it, and the caller gets a server error instead
    of the 400 error "Invalid audio URL".  Nothing is fetched. *)
Theorem unparsable_url_is_server_error :
  urlparse example_env "ftp://[host/file" = InvalidURL "Invalid IPv6 URL"
  /\ predict example_env (url_request "ftp://[host/file" Omitted) empty_world =
       (inl (ValueError "Invalid IPv6 URL"), empty_world)
  /\ handler (fst (predict example_env (url_request "ftp://[host/file" Omitted)
                            empty_world)) = InternalServerError
  /\ handler (fst (predict example_env (url_request "ftp://[host/file" Omitted)
                            empty_world)) <> ErrorBody 400 "Invalid audio URL"
  /\ fetched (snd (predict example_env (url_request "ftp://[host/file" Omitted)
                            empty_world)) = [].
Proof.
  repeat split. discriminate.
Qed.

(** Whenever urlparse raises, the request ends in a server error with the
    world untouched. *)
Lemma unparsable_url_run (env : Env) (req : AudioRequest) (url msg : string) (w : World) :
  audio_url req = Some url ->
  url <> "" ->
  urlparse env url = InvalidURL msg ->
  predict env req w = (inl (ValueError msg), w)
  /\ handler (fst (predict env req w)) = InternalServerError.
Proof.
  intros Hu Hne Hp. destruct url as [|c u]; [congruence|].
  rewrite (predict_url_run env req c u w Hu). cbn zeta. rewrite Hp. split; reflexivity.
Qed.

(** ** The language of the answer *)

(** C8, as amended.  Whenever the request is answered with a result - a
    verdict of the classifier or the fallback - its language is the one
    sent when that is a non-empty string, and "English" when the field is
    omitted, null or empty. *)
Theorem response_language (env : Env) (url b64 fmt lang : field) (w w' : World)
        (r : PredictionResponse) :
  serve env url b64 fmt lang w = (Ok200 r, w') ->
  resp_language r = match lang with
                    | Str (String c s) => String c s
                    | _ => "English"
                    end.
Proof.
  unfold serve. intros H.
  destruct (predict env (AudioRequest_of_body url b64 fmt lang) w) as [[e|r0] w0] eqn:Hp.
  - destruct e; discriminate H.
  - cbn [handler] in H. injection H as -> ->.
    assert (Hl : or_default (language (AudioRequest_of_body url b64 fmt lang)) "English" =
                 match lang with
                 | Str (String c s) => String c s
                 | _ => "English"
                 end)
      by (destruct lang as [| |[|c s]]; reflexivity).
    destruct (predict_responds _ _ _ _ _ Hp) as [(f & ->) | (_ & _ & ->)].
    + rewrite analyze_language. exact Hl.
    + exact Hl.
Qed.

Lemma response_language_witness :
  serve example_env Omitted (Str "not-base64-!!") Omitted (Str "Tamil") empty_world =
    (Ok200 (fallback "Tamil"), empty_world)
  /\ resp_language (fallback "Tamil") = "Tamil".
Proof.
  split; [reflexivity|].
  apply (response_language example_env Omitted (Str "not-base64-!!") Omitted (Str "Tamil")
                           empty_world empty_world (fallback "Tamil")).
  reflexivity.
Defined.

(** C8, as stated, fails.  A request that sends the empty string as its
    language is answered in "English", not with the string it sent. *)
Lemma empty_language_counterexample :
  exists r w',
    serve example_env Omitted (Str "AAAA") Omitted (Str "") empty_world = (Ok200 r, w')
    /\ resp_language r = "English"
    /\ resp_language r <> "".
Proof.
  eexists. eexists. split; [vm_compute; reflexivity|]. split; [reflexivity | discriminate].
Qed.

(** ** Both sources in one request *)

Lemma waveform_features_raises (audio : list Q) (e : exn) :
  waveform_features audio = inl e -> audio = [] /\ e = ZeroDivisionError.
Proof.
  destruct audio; [intros [= <-]; auto | discriminate].
Qed.

(** C9, as amended.  When [audio_url] is a non-empty string, the request
    is handled as if [audioBase64] and [audioFormat] had not been sent: it
    goes through the URL path only, it is not rejected for a missing source,
    and its answer is never the fallback of the inline path. *)
Theorem url_takes_precedence (env : Env) (req : AudioRequest) (url : string)
        (w : World) :
  audio_url req = Some url ->
  url <> "" ->
  predict env req w =
    predict env {| audio_url := Some url; audioBase64 := None;
                   audioFormat := None; language := language req |} w
  /\ fst (predict env req w) <> inl (HTTPException 422 "audio_url or audioBase64 required")
  /\ (forall lang, fst (predict env req w) <> inr (fallback lang)).
Proof.
  intros Hu Hne. destruct url as [|c u]; [congruence|].
  split; [|split].
  - rewrite (predict_url_run env req c u w Hu).
    rewrite (predict_url_run env
               {| audio_url := Some (String c u); audioBase64 := None;
                  audioFormat := None; language := language req |} c u w eq_refl).
    reflexivity.
  - rewrite (predict_url_run env req c u w Hu). cbn zeta.
    destruct (urlparse env (String c u)) as [scheme|msg]; [|discriminate].
    destruct (negb _); [discriminate|].
    destruct (http_get env (String c u)) as [[status body]|]; [|discriminate].
    destruct (negb _); [discriminate|].
    destruct (tmp_create_ok env ".wav"); [|discriminate].
    destruct (tmp_write_ok env body); [|discriminate].
    destruct (sf_read env _) as [audio|]; [|discriminate].
    destruct (waveform_features (to_mono audio)) as [e|f] eqn:E; [|discriminate].
    apply waveform_features_raises in E. destruct E as [_ ->]. discriminate.
  - intros lang H.
    destruct (predict env req w) as [r0 w'] eqn:Hp. cbn [fst] in H. subst r0.
    destruct (predict_responds _ _ _ _ _ Hp) as [(f & Hf) | (Ht & _)].
    + symmetry in Hf. apply (analyze_not_fallback _ _ _ Hf).
    + rewrite Hu in Ht. discriminate Ht.
Qed.

Lemma url_takes_precedence_witness :
  predict example_env
          (AudioRequest_of_body (Str "http://host/a.wav") (Str "not-base64-!!") Omitted Omitted)
          empty_world =
    predict example_env
            {| audio_url := Some "http://host/a.wav"; audioBase64 := None;
               audioFormat := None; language := Some "English" |} empty_world
  /\ fst (predict example_env
            (AudioRequest_of_body (Str "http://host/a.wav") (Str "not-base64-!!") Omitted Omitted)
            empty_world) <> inl (HTTPException 422 "audio_url or audioBase64 required")
  /\ (forall lang,
         fst (predict example_env
                (AudioRequest_of_body (Str "http://host/a.wav") (Str "not-base64-!!")
                                      Omitted Omitted)
                empty_world) <> inr (fallback lang)).
Proof.
  apply (url_takes_precedence example_env
           (AudioRequest_of_body (Str "http://host/a.wav") (Str "not-base64-!!") Omitted Omitted)
           "http://host/a.wav" empty_world).
  - reflexivity.
  - discriminate.
Defined.

(** C9, as stated, fails.  With an empty [audio_url] next to a payload,
    both fields are sent but the request goes through the inline path:
    nothing is fetched and the answer is the fallback. *)
Lemma empty_url_counterexample :
  let req := AudioRequest_of_body (Str "") (Str "not-base64-!!") Omitted Omitted in
  audio_url req = Some ""
  /\ audioBase64 req = Some "not-base64-!!"
  /\ predict example_env req empty_world = (inr (fallback "English"), empty_world)
  /\ fetched (snd (predict example_env req empty_world)) = [].
Proof.
  repeat split.
Qed.

(** ** The values of the confidence *)

(** C10. The confidence of the classifier is 0.5, 0.7 or 0.9, each of
    them for some features, and never 0.71; an answer of the route with
    confidence 0.71 is the fallback of the inline path. *)
Theorem classifier_confidence_values :
  (forall f lang,
      confidence (analyze f lang) == 0.5 \/
      confidence (analyze f lang) == 0.7 \/
      confidence (analyze f lang) == 0.9)
  /\ (forall f lang, ~ confidence (analyze f lang) == 0.71)
  /\ (exists f1 f2 f3,
         confidence (analyze f1 "English") == 0.5
         /\ confidence (analyze f2 "English") == 0.7
         /\ confidence (analyze f3 "English") == 0.9)
  /\ (forall env req w r w',
         predict env req w = (inr r, w') ->
         confidence r == 0.71 ->
         truthy (audio_url req) = false
         /\ truthy (audioBase64 req) = true
         /\ r = fallback (or_default (language req) "English")).
Proof.
  split; [exact analyze_confidence|]. split; [|split].
  - intros f lang H.
    destruct (analyze_confidence f lang) as [E|[E|E]]; rewrite E in H; discriminate H.
  - exists {| energy := Fin 1; zcr := Fin 1; peak_density := Fin 1 |},
           {| energy := Fin 1; zcr := NaN; peak_density := Fin 0 |},
           {| energy := Fin 0; zcr := Fin 0; peak_density := Fin 0 |}.
    repeat split.
  - intros env req w r w' Hp Hc.
    destruct (predict_responds _ _ _ _ _ Hp) as [(f & ->) | H]; [|exact H].
    exfalso.
    destruct (analyze_confidence f (or_default (language req) "English")) as [E|[E|E]];
      rewrite E in Hc; discriminate Hc.
Qed.

Lemma classifier_confidence_values_witness :
  predict example_env (inline_request "not-base64-!!" Omitted) empty_world =
    (inr (fallback "English"), empty_world)
  /\ confidence (fallback "English") == 0.71
  /\ truthy (audio_url (inline_request "not-base64-!!" Omitted)) = false
  /\ truthy (audioBase64 (inline_request "not-base64-!!" Omitted)) = true
  /\ fallback "English" =
       fallback (or_default (language (inline_request "not-base64-!!" Omitted)) "English").
Proof.
  split; [reflexivity|]. split; [reflexivity|].
  destruct classifier_confidence_values as (_ & _ & _ & H).
  apply (H example_env (inline_request "not-base64-!!" Omitted) empty_world
           (fallback "English") empty_world).
  - reflexivity.
  - reflexivity.
Defined.

(* ------------------------------------------------------------------ *)
(** * Further properties of the code *)

(** ** Authentication *)

(** X1. A request whose [x-api-key] header is absent or differs from the
    configured key is answered 403 "Not authenticated" and leaves the world
    untouched: the route body does not run, nothing is fetched or written. *)
Theorem unauthenticated_request_rejected (env : Env) (x_api_key : option string)
        (url b64 fmt lang : field) (w : World) :
  x_api_key <> Some VALID_API_KEY ->
  post_predict env x_api_key url b64 fmt lang w =
    (ErrorBody 403 "Not authenticated", w).
Proof.
  intros Hk. unfold post_predict, verify_token.
  destruct x_api_key as [key|]; [|reflexivity].
  destruct (String.eqb key VALID_API_KEY) eqn:E; [|reflexivity].
  apply String.eqb_eq in E. congruence.
Qed.

Lemma unauthenticated_request_rejected_witness :
  Some "guess" <> Some VALID_API_KEY
  /\ post_predict example_env (Some "guess") (Str "http://host/a.wav") Omitted Omitted
                  Omitted empty_world =
       (ErrorBody 403 "Not authenticated", empty_world).
Proof.
  assert (H : Some "guess" <> Some VALID_API_KEY) by discriminate.
  split; [exact H|].
  exact (unauthenticated_request_rejected example_env (Some "guess")
           (Str "http://host/a.wav") Omitted Omitted Omitted empty_world H).
Defined.

(** With the configured key the route answers what [predict] answers,
    formatted by the exception handler. *)
Lemma authenticated_request_served (env : Env) (url b64 fmt lang : field) (w : World) :
  post_predict env (Some VALID_API_KEY) url b64 fmt lang w =
    (handler (fst (predict env (AudioRequest_of_body url b64 fmt lang) w)),
     snd (predict env (AudioRequest_of_body url b64 fmt lang) w)).
Proof.
  unfold post_predict, serve. cbn [verify_token].
  destruct (predict env (AudioRequest_of_body url b64 fmt lang) w) as [r w'].
  reflexivity.
Qed.

(** ** Requests without a source *)

(** X2. A request in which [audio_url] and [audioBase64] are each omitted,
    null or empty is answered 422 "audio_url or audioBase64 required",
    whatever the other fields hold, and the world is left as it was. *)
Theorem missing_source_rejected (env : Env) (url b64 fmt lang : field) (w : World) :
  truthy (field_value url None) = false ->
  truthy (field_value b64 None) = false ->
  serve env url b64 fmt lang w = (ErrorBody 422 "audio_url or audioBase64 required", w).
Proof.
  intros Hu Hb. unfold serve.
  rewrite (predict_no_input_run env (AudioRequest_of_body url b64 fmt lang) w Hu Hb).
  reflexivity.
Qed.

Lemma missing_source_rejected_witness :
  truthy (field_value Null None) = false
  /\ truthy (field_value (Str "") None) = false
  /\ serve example_env Null (Str "") (Str "mp3") (Str "Hindi") empty_world =
       (ErrorBody 422 "audio_url or audioBase64 required", empty_world).
Proof.
  split; [reflexivity|]. split; [reflexivity|].
  apply (missing_source_rejected example_env Null (Str "") (Str "mp3") (Str "Hindi")
           empty_world); reflexivity.
Defined.

(** ** The two audio helpers *)

Lemma stored_lookup_other (w : World) (sfx : string) (data : list Byte.byte) (q : positive) :
  q <> fresh (dom (files w)) -> files (stored w sfx data) !! q = files w !! q.
Proof.
  intros Hq. unfold stored. cbn [files]. apply lookup_insert_ne. congruence.
Qed.

Lemma stored_lookup_fresh (w : World) (sfx : string) (data : list Byte.byte) :
  files (stored w sfx data) !! fresh (dom (files w)) =
  Some {| suffix := sfx; content := data |}.
Proof.
  unfold stored. cbn [files]. apply lookup_insert_eq.
Qed.

(** X3. When the server answers 200 and the disk works, [download_audio]
    returns a path that was not in use; the file there has the suffix
    ".wav" and holds the response body, byte for byte; every other file is
    as before, and exactly the given URL was requested. *)
Theorem download_audio_stores_body (env : Env) (url : string) (body : list Byte.byte)
        (w : World) :
  http_get env url = Some (200%nat, body) ->
  tmp_create_ok env ".wav" = true ->
  tmp_write_ok env body = true ->
  exists p w',
    download_audio env url w = (inr p, w')
    /\ files w !! p = None
    /\ files w' !! p = Some {| suffix := ".wav"; content := body |}
    /\ (forall q, q <> p -> files w' !! q = files w !! q)
    /\ fetched w' = url :: fetched w
    /\ created w' = p :: created w.
Proof.
  intros Hget Hc Hw. rewrite download_audio_run, Hget. cbn [Nat.eqb negb].
  rewrite Hc, Hw.
  exists (fresh (dom (files w))), (stored (requested w url) ".wav" body).
  split; [reflexivity|]. split; [apply fresh_not_in_files|].
  split; [apply (stored_lookup_fresh (requested w url))|].
  split; [|split; reflexivity].
  intros q Hq. apply (stored_lookup_other (requested w url)). exact Hq.
Qed.

Lemma download_audio_stores_body_witness :
  http_get example_env "http://host/a.wav" = Some (200%nat, [Byte.x00; Byte.x00; Byte.x00])
  /\ exists p w',
    download_audio example_env "http://host/a.wav" empty_world = (inr p, w')
    /\ files empty_world !! p = None
    /\ files w' !! p = Some {| suffix := ".wav"; content := [Byte.x00; Byte.x00; Byte.x00] |}
    /\ (forall q, q <> p -> files w' !! q = files empty_world !! q)
    /\ fetched w' = "http://host/a.wav" :: fetched empty_world
    /\ created w' = p :: created empty_world.
Proof.
  split; [reflexivity|].
  apply (download_audio_stores_body example_env "http://host/a.wav"
           [Byte.x00; Byte.x00; Byte.x00] empty_world); reflexivity.
Defined.

(** X4. A download answered with a status other than 200 makes
    [download_audio] raise the 400 error "Failed to download audio" after
    the one request; no temporary file is created. *)
Theorem download_audio_bad_status (env : Env) (url : string) (status : nat)
        (body : list Byte.byte) (w : World) :
  http_get env url = Some (status, body) ->
  status <> 200%nat ->
  exists w',
    download_audio env url w = (inl (HTTPException 400 "Failed to download audio"), w')
    /\ files w' = files w
    /\ created w' = created w
    /\ fetched w' = url :: fetched w.
Proof.
  intros Hget Hs. rewrite download_audio_run, Hget.
  apply Nat.eqb_neq in Hs. rewrite Hs. cbn [negb].
  exists (requested w url). repeat split.
Qed.

Lemma download_audio_bad_status_witness :
  404%nat <> 200%nat
  /\ exists w',
    download_audio not_found_env "http://host/gone.wav" empty_world =
      (inl (HTTPException 400 "Failed to download audio"), w')
    /\ files w' = files empty_world
    /\ created w' = created empty_world
    /\ fetched w' = "http://host/gone.wav" :: fetched empty_world.
Proof.
  assert (H : 404%nat <> 200%nat) by discriminate.
  split; [exact H|].
  exact (download_audio_bad_status not_found_env "http://host/gone.wav" 404%nat []
           empty_world eq_refl H).
Defined.

(** X5. When the payload decodes and the disk works, [save_base64_audio]
    returns a path that was not in use; the file there holds the decoded
    bytes and its suffix is a dot and the given format, or ".wav" when the
    format is missing or empty; every other file is as before and nothing
    is requested over the network. *)
Theorem save_base64_audio_stores_bytes (env : Env) (data : string) (fmt : option string)
        (bytes : list Byte.byte) (w : World) :
  let sfx := match fmt with
             | Some (String c r) => "." ++ String c r
             | _ => ".wav"
             end in
  b64decode env data = Some bytes ->
  tmp_create_ok env sfx = true ->
  tmp_write_ok env bytes = true ->
  exists p w',
    save_base64_audio env data fmt w = (inr p, w')
    /\ files w !! p = None
    /\ files w' !! p = Some {| suffix := sfx; content := bytes |}
    /\ (forall q, q <> p -> files w' !! q = files w !! q)
    /\ fetched w' = fetched w
    /\ created w' = p :: created w.
Proof.
  intros sfx Hd Hc Hw.
  assert (Hs : suffix_of fmt = sfx) by (destruct fmt as [[|c r]|]; reflexivity).
  rewrite save_base64_audio_run, Hd, Hs, Hc, Hw.
  exists (fresh (dom (files w))), (stored w sfx bytes).
  split; [reflexivity|]. split; [apply fresh_not_in_files|].
  split; [apply stored_lookup_fresh|].
  split; [|split; reflexivity].
  intros q Hq. apply stored_lookup_other, Hq.
Qed.

Lemma save_base64_audio_stores_bytes_witness :
  b64decode example_env "AAAA" = Some [Byte.x00; Byte.x00; Byte.x00]
  /\ exists p w',
    save_base64_audio example_env "AAAA" (Some "mp3") empty_world = (inr p, w')
    /\ files empty_world !! p = None
    /\ files w' !! p = Some {| suffix := ".mp3"; content := [Byte.x00; Byte.x00; Byte.x00] |}
    /\ (forall q, q <> p -> files w' !! q = files empty_world !! q)
    /\ fetched w' = fetched empty_world
    /\ created w' = p :: created empty_world.
Proof.
  split; [reflexivity|].
  apply (save_base64_audio_stores_bytes example_env "AAAA" (Some "mp3")
           [Byte.x00; Byte.x00; Byte.x00] empty_world); reflexivity.
Defined.

(** X6. Whatever goes wrong inside [save_base64_audio] - the decoding, the
    creation of the file or the write - the caller sees the one exception
    ValueError("Invalid base64 audio"); the helper requests nothing over the
    network and unlinks nothing. *)
Theorem save_base64_audio_raises_value_error (env : Env) (data : string)
        (fmt : option string) (w w' : World) (e : exn) :
  save_base64_audio env data fmt w = (inl e, w') ->
  e = ValueError "Invalid base64 audio"
  /\ fetched w' = fetched w
  /\ unlinked w' = unlinked w.
Proof.
  rewrite save_base64_audio_run.
  destruct (b64decode env data) as [b|];
    [destruct (tmp_create_ok env (suffix_of fmt));
     [destruct (tmp_write_ok env b)|]|];
    intros [= <- <-]; repeat split.
Qed.

Lemma save_base64_audio_raises_value_error_witness :
  save_base64_audio example_env "not-base64-!!" None empty_world =
    (inl (ValueError "Invalid base64 audio"), empty_world)
  /\ ValueError "Invalid base64 audio" = ValueError "Invalid base64 audio"
  /\ fetched empty_world = fetched empty_world
  /\ unlinked empty_world = unlinked empty_world.
Proof.
  split; [reflexivity|].
  apply (save_base64_audio_raises_value_error example_env "not-base64-!!" None
           empty_world empty_world). reflexivity.
Defined.

(** ** Answers of the route *)

Lemma inline_path_always_answers_aux (env : Env) (req : AudioRequest) (c : ascii)
      (d : string) (w : World) :
  truthy (audio_url req) = false ->
  audioBase64 req = Some (String c d) ->
  exists r, handler (fst (predict env req w)) = Ok200 r.
Proof.
  intros Hu Hd. rewrite (predict_inline_run env req c d w Hu Hd). cbn zeta.
  destruct (b64decode env (String c d)) as [b|]; [|eexists; reflexivity].
  destruct (tmp_create_ok env _); [|eexists; reflexivity].
  destruct (tmp_write_ok env b); [|eexists; reflexivity].
  destruct (sf_read env _) as [audio|]; [|eexists; reflexivity].
  destruct (waveform_features (to_mono audio)); eexists; reflexivity.
Qed.

(** X7. A request that takes the inline path is always answered with
    status 200 - a verdict or the fallback, never an error body or a
    server error - and nothing is requested over the network for it. *)
Theorem inline_path_always_answers (env : Env) (req : AudioRequest) (data : string)
        (w : World) :
  truthy (audio_url req) = false ->
  audioBase64 req = Some data ->
  data <> "" ->
  (exists r, handler (fst (predict env req w)) = Ok200 r)
  /\ fetched (snd (predict env req w)) = fetched w.
Proof.
  intros Hu Hd Hne. destruct data as [|c d]; [congruence|].
  rewrite (predict_inline_run env req c d w Hu Hd). cbn zeta.
  destruct (b64decode env (String c d)) as [b|]; [|split; [eexists|]; reflexivity].
  destruct (tmp_create_ok env _); [|split; [eexists|]; reflexivity].
  destruct (tmp_write_ok env b); [|split; [eexists|]; reflexivity].
  destruct (sf_read env _) as [audio|]; [|split; [eexists|]; reflexivity].
  destruct (waveform_features (to_mono audio)); split; try eexists; reflexivity.
Qed.

Lemma inline_path_always_answers_witness :
  (exists r, handler (fst (predict example_env (inline_request "AAAA" Omitted) empty_world)) =
             Ok200 r)
  /\ fetched (snd (predict example_env (inline_request "AAAA" Omitted) empty_world)) =
       fetched empty_world.
Proof.
  apply (inline_path_always_answers example_env (inline_request "AAAA" Omitted) "AAAA"
           empty_world); [reflexivity | reflexivity | discriminate].
Defined.

(** X8. On the URL path a download that is stored but is not readable
    audio, or decodes to no sample at all, is not turned into an error body:
    the exception is no HTTPException, so the caller gets the server error of
    the framework.  The temporary file is unlinked all the same. *)
Theorem undecodable_download_is_server_error (env : Env) (req : AudioRequest)
        (url : string) (body : list Byte.byte) (w : World) :
  audio_url req = Some url ->
  url <> "" ->
  urlparse env url = Scheme "http" \/ urlparse env url = Scheme "https" ->
  http_get env url = Some (200%nat, body) ->
  tmp_create_ok env ".wav" = true ->
  tmp_write_ok env body = true ->
  sf_read env {| suffix := ".wav"; content := body |} = None
  \/ (exists audio, sf_read env {| suffix := ".wav"; content := body |} = Some audio
                    /\ to_mono audio = []) ->
  handler (fst (predict env req w)) = InternalServerError
  /\ files (snd (predict env req w)) = files w
  /\ exists p, created (snd (predict env req w)) = p :: created w
               /\ unlinked (snd (predict env req w)) = p :: unlinked w.
Proof.
  intros Hu Hne Hs Hget Hc Hw Hbad. destruct url as [|c u]; [congruence|].
  rewrite (predict_url_run env req c u w Hu). cbn zeta.
  assert (Hok : exists scheme,
             urlparse env (String c u) = Scheme scheme
             /\ negb (String.eqb scheme "http" || String.eqb scheme "https") = false).
  { destruct Hs as [Hs | Hs]; eexists; (split; [exact Hs | reflexivity]). }
  destruct Hok as (scheme & -> & ->). rewrite Hget. cbn [Nat.eqb negb]. rewrite Hc, Hw. cbn [fst snd].
  split; [|split; [reflexivity | eexists; split; reflexivity]].
  destruct Hbad as [-> | (audio & -> & ->)]; reflexivity.
Qed.

Lemma undecodable_download_is_server_error_witness :
  sf_read empty_download_env {| suffix := ".wav"; content := [] |} = None
  /\ handler (fst (predict empty_download_env
                          (url_request "https://host/empty.wav" Omitted) empty_world)) =
       InternalServerError
  /\ files (snd (predict empty_download_env
                         (url_request "https://host/empty.wav" Omitted) empty_world)) =
       files empty_world
  /\ exists p,
       created (snd (predict empty_download_env
                             (url_request "https://host/empty.wav" Omitted) empty_world)) =
         p :: created empty_world
       /\ unlinked (snd (predict empty_download_env
                                 (url_request "https://host/empty.wav" Omitted) empty_world)) =
            p :: unlinked empty_world.
Proof.
  split; [reflexivity|].
  apply (undecodable_download_is_server_error empty_download_env
           (url_request "https://host/empty.wav" Omitted)
           "https://host/empty.wav" [] empty_world);
    try reflexivity.
  - discriminate.
  - right. reflexivity.
  - left. reflexivity.
Defined.

Lemma predict_answers (env : Env) (req : AudioRequest) (w : World) :
  (exists r, handler (fst (predict env req w)) = Ok200 r)
  \/ handler (fst (predict env req w)) = ErrorBody 400 "Invalid audio URL"
  \/ handler (fst (predict env req w)) = ErrorBody 400 "Failed to download audio"
  \/ handler (fst (predict env req w)) = ErrorBody 422 "audio_url or audioBase64 required"
  \/ handler (fst (predict env req w)) = InternalServerError.
Proof.
  destruct (truthy (audio_url req)) eqn:Hu.
  - destruct (truthy_true _ Hu) as (c & u & Eu).
    rewrite (predict_url_run env req c u w Eu). cbn zeta.
    destruct (urlparse env (String c u)) as [scheme|msg]; [|auto 6].
    destruct (negb _); [auto|].
    destruct (http_get env (String c u)) as [[status body]|]; [|auto 6].
    destruct (negb _); [auto|].
    destruct (tmp_create_ok env ".wav"); [|auto 6].
    destruct (tmp_write_ok env body); [|auto 6].
    destruct (sf_read env _) as [audio|]; [|auto 6].
    destruct (waveform_features (to_mono audio)) as [e|f] eqn:E.
    + apply waveform_features_raises in E. destruct E as [_ ->]. auto 6.
    + left. eexists. reflexivity.
  - destruct (truthy (audioBase64 req)) eqn:Hb.
    + destruct (truthy_true _ Hb) as (c & d & Ed).
      left. apply (inline_path_always_answers_aux env req c d w Hu Ed).
    + rewrite (predict_no_input_run env req w Hu Hb). auto 6.
Qed.

(** X9. Whatever the key, the request and the environment, the caller of
    POST /predict sees one of: a result with status 200; the 400 errors
    "Invalid audio URL" and "Failed to download audio"; the 403 error "Not
    authenticated"; the 422 error "audio_url or audioBase64 required"; a
    server error. *)
Theorem possible_answers (env : Env) (x_api_key : option string)
        (url b64 fmt lang : field) (w : World) :
  let answer := fst (post_predict env x_api_key url b64 fmt lang w) in
  (exists r, answer = Ok200 r)
  \/ answer = ErrorBody 400 "Invalid audio URL"
  \/ answer = ErrorBody 400 "Failed to download audio"
  \/ answer = ErrorBody 403 "Not authenticated"
  \/ answer = ErrorBody 422 "audio_url or audioBase64 required"
  \/ answer = InternalServerError.
Proof.
  cbn zeta. unfold post_predict.
  destruct (verify_token x_api_key) as [e|key] eqn:Hk.
  - assert (He : e = HTTPException 403 "Not authenticated").
    { unfold verify_token in Hk. destruct x_api_key as [k|]; [|congruence].
      destruct (negb (String.eqb k VALID_API_KEY)); congruence. }
    subst e. cbn [fst handler]. auto 6.
  - unfold serve.
    pose proof (predict_answers env (AudioRequest_of_body url b64 fmt lang) w) as H.
    destruct (predict env (AudioRequest_of_body url b64 fmt lang) w) as [r w'].
    cbn [fst] in *. destruct H as [H | [H | [H | [H | H]]]]; auto 7.
Qed.

(** ** Files of others, and many requests *)

Lemma lookup_kept_by_new_file (m : gmap positive File) (p : positive) (f g : File) :
  m !! p = Some f -> <[fresh (dom m) := g]> m !! p = Some f.
Proof.
  intros Hp. rewrite lookup_insert_ne; [exact Hp|].
  intros E. rewrite <- E in Hp.
  pose proof (not_elem_of_dom_1 m (fresh (dom m)) (is_fresh (dom m))) as Hn.
  congruence.
Qed.

(** X10. A request never removes or changes a file that was there before
    it: whatever the environment does - failing writes included - every
    file of the temporary directory that existed is still there with its
    suffix and content. *)
Theorem existing_files_untouched (env : Env) (req : AudioRequest) (w : World)
        (p : positive) (f : File) :
  files w !! p = Some f ->
  files (snd (predict env req w)) !! p = Some f.
Proof.
  intros Hp.
  assert (Ht : forall w0 sfx, files w0 !! p = Some f -> files (touched w0 sfx) !! p = Some f)
    by (intros w0 sfx H0; apply lookup_kept_by_new_file, H0).
  destruct (truthy (audio_url req)) eqn:Hu.
  - destruct (truthy_true _ Hu) as (c & u & Eu).
    rewrite (predict_url_run env req c u w Eu). cbn zeta.
    destruct (urlparse env (String c u)) as [scheme|msg]; [|exact Hp].
    destruct (negb _); [exact Hp|].
    destruct (http_get env (String c u)) as [[status body]|]; [|exact Hp].
    destruct (negb _); [exact Hp|].
    destruct (tmp_create_ok env ".wav"); [|exact Hp].
    destruct (tmp_write_ok env body); [exact Hp|].
    apply (Ht (requested w (String c u))), Hp.
  - destruct (truthy (audioBase64 req)) eqn:Hb.
    + destruct (truthy_true _ Hb) as (c & d & Ed).
      rewrite (predict_inline_run env req c d w Hu Ed). cbn zeta.
      destruct (b64decode env (String c d)) as [b|]; [|exact Hp].
      destruct (tmp_create_ok env _); [|exact Hp].
      destruct (tmp_write_ok env b); [exact Hp|].
      apply Ht, Hp.
    + rewrite (predict_no_input_run env req w Hu Hb). exact Hp.
Qed.

Lemma existing_files_untouched_witness :
  files (stored empty_world ".txt" [Byte.x41]) !! 1%positive =
    Some {| suffix := ".txt"; content := [Byte.x41] |}
  /\ files (snd (predict disk_full_env (inline_request "AAAA" Omitted)
                         (stored empty_world ".txt" [Byte.x41]))) !! 1%positive =
       Some {| suffix := ".txt"; content := [Byte.x41] |}.
Proof.
  assert (H : files (stored empty_world ".txt" [Byte.x41]) !! 1%positive =
              Some {| suffix := ".txt"; content := [Byte.x41] |}) by reflexivity.
  split; [exact H|].
  exact (existing_files_untouched disk_full_env (inline_request "AAAA" Omitted)
           (stored empty_world ".txt" [Byte.x41]) 1%positive _ H).
Defined.

(** X11. When every write to a temporary file goes through, any number of
    requests served one after the other leaves the temporary directory
    exactly as it was: the files created are the files unlinked, in the same
    order, at most one for each request. *)
Theorem no_files_left_after_requests (reqs : list (Env * AudioRequest)) (w : World) :
  Forall (fun er => forall data, tmp_write_ok (fst er) data = true) reqs ->
  files (snd (predict_all reqs w)) = files w
  /\ exists ps : list positive,
       created (snd (predict_all reqs w)) = (ps ++ created w)%list
       /\ unlinked (snd (predict_all reqs w)) = (ps ++ unlinked w)%list
       /\ (length ps <= length reqs)%nat.
Proof.
  intros Hall. revert w. induction Hall as [|[env req] rest Hw _ IH]; intros w.
  - split; [reflexivity|]. exists []. repeat split. cbn [length]. lia.
  - cbn [predict_all]. cbn [fst] in Hw.
    pose proof (temp_files_released env req w Hw) as Hrel. cbn zeta in Hrel.
    destruct (predict env req w) as [r w1]. cbn [snd] in Hrel.
    specialize (IH w1). destruct (predict_all rest w1) as [rs w2]. cbn [snd] in *.
    destruct IH as (Hf & ps & Hc & Hu & Hl).
    destruct Hrel as (Hf1 & [(Hc1 & Hu1) | (p & _ & Hc1 & Hu1)]).
    + split; [congruence|]. exists ps. rewrite Hc, Hu, Hc1, Hu1.
      repeat split. cbn [length]. lia.
    + split; [congruence|]. exists (ps ++ [p])%list. rewrite Hc, Hu, Hc1, Hu1.
      rewrite <- !app_assoc. repeat split. rewrite length_app. cbn [length]. lia.
Qed.

Lemma no_files_left_after_requests_witness :
  Forall (fun er => forall data, tmp_write_ok (fst er) data = true)
         [(example_env, inline_request "AAAA" Omitted);
          (example_env, url_request "http://host/a.wav" Omitted);
          (example_env, inline_request "not-base64-!!" Omitted)]
  /\ files (snd (predict_all
                   [(example_env, inline_request "AAAA" Omitted);
                    (example_env, url_request "http://host/a.wav" Omitted);
                    (example_env, inline_request "not-base64-!!" Omitted)]
                   empty_world)) = files empty_world.
Proof.
  assert (H : Forall (fun er => forall data, tmp_write_ok (fst er) data = true)
                [(example_env, inline_request "AAAA" Omitted);
                 (example_env, url_request "http://host/a.wav" Omitted);
                 (example_env, inline_request "not-base64-!!" Omitted)])
    by (repeat constructor).
  split; [exact H|].
  exact (proj1 (no_files_left_after_requests _ empty_world H)).
Defined.

(** ** The verdict and the range of the features *)

Lemma analyze_ext (f f' : FeatureVector) (lang : string) :
  zcr f' = zcr f -> peak_density f' = peak_density f ->
  analyze f' lang = analyze f lang.
Proof.
  intros Hz Hp. unfold analyze. rewrite Hz, Hp. reflexivity.
Qed.

(** X12. The verdict depends on the two tests only: the label is "Human"
    exactly when neither the peak density is below 0.01 nor the
    zero-crossing rate below 0.05 (a nan is below nothing), and exactly when
    the confidence is 0.5; it is "AI Generated" as soon as one test holds;
    the energy has no influence on the answer. *)
Theorem verdict_from_two_tests (f : FeatureVector) (lang : string) :
  (classification (analyze f lang) = "Human" <->
   flt (peak_density f) 0.01 = false /\ flt (zcr f) 0.05 = false)
  /\ (classification (analyze f lang) = "AI Generated" <->
      flt (peak_density f) 0.01 = true \/ flt (zcr f) 0.05 = true)
  /\ (classification (analyze f lang) = "Human" <-> confidence (analyze f lang) == 0.5)
  /\ (forall e, analyze {| energy := e; zcr := zcr f; peak_density := peak_density f |} lang =
                analyze f lang).
Proof.
  split; [|split; [|split]].
  - unfold analyze.
    destruct (flt (peak_density f) 0.01), (flt (zcr f) 0.05); cbn;
      split; try discriminate; try tauto; intros [? ?]; discriminate.
  - unfold analyze.
    destruct (flt (peak_density f) 0.01), (flt (zcr f) 0.05); cbn;
      split; try discriminate; try tauto; intros [?|?]; discriminate.
  - unfold analyze.
    destruct (flt (peak_density f) 0.01), (flt (zcr f) 0.05); cbn;
      split; try discriminate; try reflexivity.
  - intros e. apply analyze_ext; reflexivity.
Qed.










(** ** Scaled waveforms *)

Lemma Qltb_scaled (c a b a' b' : Q) :
  0 < c -> a' == c * a -> b' == c * b -> Qltb a' b' = Qltb a b.
Proof.
  intros Hc Ha Hb. destruct (Qltb a b) eqn:E.
  - apply Qltb_lt in E. apply Qltb_lt. rewrite Ha, Hb. nra.
  - apply Qltb_ge in E. apply Qltb_ge. rewrite Ha, Hb. nra.
Qed.

Lemma Qeq_bool_scaled (c a b a' b' : Q) :
  0 < c -> a' == c * a -> b' == c * b -> Qeq_bool a' b' = Qeq_bool a b.
Proof.
  intros Hc Ha Hb. destruct (Qeq_bool a b) eqn:E.
  - apply Qeq_bool_iff in E. apply Qeq_bool_iff. rewrite Ha, Hb, E. reflexivity.
  - apply Qeq_bool_neq in E. apply not_true_iff_false. intros H.
    apply Qeq_bool_iff in H. rewrite Ha, Hb in H. apply E. nra.
Qed.

Lemma falls_scaled (c v v' : Q) (l l' : list Q) :
  0 < c -> v' == c * v -> Forall2 (fun a b => b == c * a) l l' ->
  falls v' l' = falls v l.
Proof.
  intros Hc Hv H. induction H as [|a b l l' Hab _ IH]; [reflexivity|].
  cbn [falls]. rewrite (Qeq_bool_scaled c a v b v' Hc Hab Hv), IH.
  rewrite (Qltb_scaled c a v b v' Hc Hab Hv). reflexivity.
Qed.

Lemma local_maxima_scaled (c prev prev' : Q) (l l' : list Q) :
  0 < c -> prev' == c * prev -> Forall2 (fun a b => b == c * a) l l' ->
  Forall2 (fun a b => b == c * a) (local_maxima prev l) (local_maxima prev' l').
Proof.
  intros Hc Hp H. revert prev prev' Hp.
  induction H as [|a b l l' Hab Hl IH]; intros prev prev' Hp; [constructor|].
  cbn [local_maxima].
  rewrite (Qltb_scaled c prev a prev' b Hc Hp Hab), (falls_scaled c a b l l' Hc Hab Hl).
  destruct (Qltb prev a && falls a l); [constructor; [exact Hab|]|]; apply IH, Hab.
Qed.

Lemma root_le_scaled (c v v' h h' : Q) :
  0 < c -> v' == c * c * v -> h' == c * h ->
  root_le (Sqrt (Fin v')) h' = root_le (Sqrt (Fin v)) h.
Proof.
  intros Hc Hv Hh. cbn [root_le].
  assert (H1 : Qle_bool 0 h' = Qle_bool 0 h).
  { destruct (Qle_bool 0 h) eqn:E.
    - apply Qle_bool_iff in E. apply Qle_bool_iff. rewrite Hh. nra.
    - apply not_true_iff_false. intros H. apply Qle_bool_iff in H.
      apply not_true_iff_false in E. apply E, Qle_bool_iff. rewrite Hh in H. nra. }
  assert (H2 : Qle_bool v' (h' * h') = Qle_bool v (h * h)).
  { destruct (Qle_bool v (h * h)) eqn:E.
    - apply Qle_bool_iff in E. apply Qle_bool_iff. rewrite Hv, Hh.
      assert (0 < c * c) by nra. nra.
    - apply not_true_iff_false. intros H. apply Qle_bool_iff in H.
      apply not_true_iff_false in E. apply E, Qle_bool_iff. rewrite Hv, Hh in H.
      assert (Hcc : 0 < c * c) by nra.
      assert (Hx : c * h * (c * h) == c * c * (h * h)) by ring.
      rewrite Hx in H. apply (Qmult_le_l _ _ (c * c) Hcc). exact H. }
  rewrite H1, H2. reflexivity.
Qed.

Lemma filter_scaled_length (c : Q) (r r' : root) (hs hs' : list Q) :
  (forall a b, b == c * a -> root_le r' b = root_le r a) ->
  Forall2 (fun a b => b == c * a) hs hs' ->
  length (List.filter (root_le r') hs') = length (List.filter (root_le r) hs).
Proof.
  intros Hr H. induction H as [|a b l l' Hab _ IH]; [reflexivity|].
  cbn [List.filter]. rewrite (Hr a b Hab).
  destruct (root_le r a); cbn [length]; now rewrite IH.
Qed.

Lemma np_sum_scaled (k : Q) (w w' : list Q) :
  Forall2 (fun a b => b == k * a) w w' -> np_sum w' == k * np_sum w.
Proof.
  induction 1 as [|a b l l' Hab _ IH]; cbn [np_sum fold_right].
  - ring.
  - fold (np_sum l) (np_sum l'). rewrite IH, Hab. ring.
Qed.

Lemma np_sum_deviations_scaled (k m m' : Q) (w w' : list Q) :
  m' == k * m ->
  Forall2 (fun a b => b == k * a) w w' ->
  np_sum (map (fun x => (x - m') * (x - m')) w') ==
  k * k * np_sum (map (fun x => (x - m) * (x - m)) w).
Proof.
  intros Hm. induction 1 as [|a b l l' Hab _ IH]; cbn [map np_sum fold_right].
  - ring.
  - fold (np_sum (map (fun x => (x - m) * (x - m)) l))
         (np_sum (map (fun x => (x - m') * (x - m')) l')).
    rewrite IH, Hab, Hm. ring.
Qed.

Lemma np_sum_squares_scaled (k : Q) (w w' : list Q) :
  Forall2 (fun a b => b == k * a) w w' ->
  np_sum (map (fun x => x * x) w') == k * k * np_sum (map (fun x => x * x) w).
Proof.
  induction 1 as [|a b l l' Hab _ IH]; cbn [map np_sum fold_right].
  - ring.
  - fold (np_sum (map (fun x => x * x) l)) (np_sum (map (fun x => x * x) l')).
    rewrite IH, Hab. ring.
Qed.

Lemma scaled_length (k : Q) (w w' : list Q) :
  Forall2 (fun a b => b == k * a) w w' -> length w' = length w.
Proof.
  induction 1; cbn [length]; congruence.
Qed.

Lemma np_std_scaled (k : Q) (w w' : list Q) :
  w <> [] ->
  Forall2 (fun a b => b == k * a) w w' ->
  exists v v', np_std w = Sqrt (Fin v) /\ np_std w' = Sqrt (Fin v') /\ v' == k * k * v.
Proof.
  intros Hne H.
  assert (Hne' : w' <> []) by (destruct H; [congruence | discriminate]).
  pose proof (scaled_length k w w' H) as Hl.
  pose proof (len_pos_nonempty w Hne) as Hpos.
  unfold np_std. rewrite (np_mean_nonempty w Hne), (np_mean_nonempty w' Hne').
  rewrite !np_mean_nonempty
    by (first [destruct w; [congruence | discriminate]
              | destruct w'; [congruence | discriminate]]).
  eexists. eexists. split; [reflexivity|]. split; [reflexivity|].
  rewrite !len_map. unfold len. rewrite Hl. fold (len w).
  rewrite (np_sum_deviations_scaled k (np_sum w / len w) _ w w'); [field; lra | | exact H].
  rewrite (np_sum_scaled k w w' H). field. lra.
Qed.

Lemma abs_scaled (k : Q) (w w' : list Q) :
  Forall2 (fun a b => b == k * a) w w' ->
  Forall2 (fun a b => b == Qabs k * a) (map Qabs w) (map Qabs w').
Proof.
  induction 1 as [|a b l l' Hab _ IH]; cbn [map]; constructor; [|exact IH].
  rewrite Hab. apply Qabs_Qmult.
Qed.

Lemma np_sign_neg (x : Q) : x < 0 -> np_sign x = -1.
Proof.
  intros H. unfold np_sign. destruct (Qcompare_spec x 0) as [E|E|E]; [|reflexivity|].
  - rewrite E in H. exfalso. apply (Qlt_irrefl 0 H).
  - exfalso. apply (Qlt_irrefl x). apply (Qlt_trans _ 0); assumption.
Qed.

Lemma np_sign_pos (x : Q) : 0 < x -> np_sign x = 1.
Proof.
  intros H. unfold np_sign. destruct (Qcompare_spec x 0) as [E|E|E]; [| |reflexivity].
  - rewrite E in H. exfalso. apply (Qlt_irrefl 0 H).
  - exfalso. apply (Qlt_irrefl x). apply (Qlt_trans _ 0); assumption.
Qed.

Lemma np_sign_scaled (k a b : Q) :
  b == k * a ->
  (0 < k -> np_sign b = np_sign a) /\ (k < 0 -> np_sign b = - np_sign a).
Proof.
  intros Hab. rewrite (np_sign_eq b (k * a) Hab).
  destruct (np_sign_spec a) as [(Ha & ->) | [(Ha & ->) | (Ha & ->)]]; split; intros Hk.
  - apply np_sign_neg. nra.
  - apply np_sign_pos. nra.
  - apply np_sign_zero. rewrite Ha. ring.
  - rewrite np_sign_zero by (rewrite Ha; ring). reflexivity.
  - apply np_sign_pos. nra.
  - apply np_sign_neg. nra.
Qed.

Lemma sign_changes_opp (l : list Q) :
  map Qabs (np_diff (map Qopp l)) = map Qabs (np_diff l).
Proof.
  induction l as [|x [|y l] IH]; try reflexivity.
  change (map Qabs (np_diff (map Qopp (x :: y :: l))))
    with (Qabs (- y - - x) :: map Qabs (np_diff (map Qopp (y :: l)))).
  change (map Qabs (np_diff (x :: y :: l)))
    with (Qabs (y - x) :: map Qabs (np_diff (y :: l))).
  rewrite IH. f_equal.
  destruct x as [xn xd], y as [yn yd]. unfold Qabs, Qminus, Qplus, Qopp.
  cbn [Qnum Qden]. f_equal. lia.
Qed.

Lemma sign_changes_scaled (k : Q) (w w' : list Q) :
  ~ k == 0 ->
  Forall2 (fun a b => b == k * a) w w' ->
  map Qabs (np_diff (map np_sign w')) = map Qabs (np_diff (map np_sign w)).
Proof.
  intros Hk H. destruct (Q_dec k 0) as [[Hneg | Hpos] | Hz]; [| |contradiction].
  - assert (Hs : map np_sign w' = map Qopp (map np_sign w)).
    { induction H as [|a b l l' Hab _ IH]; [reflexivity|]. cbn [map].
      rewrite IH. f_equal. apply (np_sign_scaled k a b Hab), Hneg. }
    rewrite Hs. apply sign_changes_opp.
  - assert (Hs : map np_sign w' = map np_sign w).
    { induction H as [|a b l l' Hab _ IH]; [reflexivity|]. cbn [map].
      rewrite IH. f_equal. apply (np_sign_scaled k a b Hab), Hpos. }
    rewrite Hs. reflexivity.
Qed.

Lemma Qabs_square (k : Q) : Qabs k * Qabs k == k * k.
Proof.
  rewrite <- Qabs_Qmult. apply Qabs_pos. nra.
Qed.

Lemma find_peaks_scaled (k : Q) (w w' : list Q) :
  ~ k == 0 -> w <> [] ->
  Forall2 (fun a b => b == k * a) w w' ->
  length (find_peaks (map Qabs w') (np_std w')) =
  length (find_peaks (map Qabs w) (np_std w)).
Proof.
  intros Hk Hne H.
  destruct (np_std_scaled k w w' Hne H) as (v & v' & -> & -> & Hv).
  assert (Hc : 0 < Qabs k).
  { destruct (Qle_lt_or_eq 0 (Qabs k) (Qabs_nonneg k)) as [Hlt | Heq]; [exact Hlt|].
    exfalso. apply Hk. destruct (Q_dec k 0) as [[Hn | Hp] | Hz]; [| |exact Hz].
    - rewrite Qabs_neg in Heq by lra. lra.
    - rewrite Qabs_pos in Heq by lra. lra. }
  pose proof (abs_scaled k w w' H) as Ha.
  destruct Ha as [|a b l l' Hab Hl]; [reflexivity|].
  cbn [find_peaks]. apply (filter_scaled_length (Qabs k)).
  - intros x y Hxy. apply (root_le_scaled (Qabs k)); [exact Hc | | exact Hxy].
    rewrite Hv, Qabs_square. reflexivity.
  - apply local_maxima_scaled; assumption.
Qed.

Lemma features_scaled (k : Q) (w w' : list Q) :
  ~ k == 0 -> w <> [] ->
  Forall2 (fun a b => b == k * a) w w' ->
  exists f f',
    waveform_features w = inr f
    /\ waveform_features w' = inr f'
    /\ zcr f' = zcr f
    /\ peak_density f' = peak_density f
    /\ exists e e', energy f = Fin e /\ energy f' = Fin e' /\ e' == k * k * e.
Proof.
  intros Hk Hne H.
  assert (Hne' : w' <> []) by (destruct H; [congruence | discriminate]).
  pose proof (scaled_length k w w' H) as Hl.
  pose proof (len_pos_nonempty w Hne) as Hpos.
  eexists. eexists.
  split; [apply (waveform_features_nonempty w Hne)|].
  split; [apply (waveform_features_nonempty w' Hne')|].
  cbn [energy zcr peak_density]. split; [|split].
  - rewrite (sign_changes_scaled k w w' Hk H). reflexivity.
  - rewrite (find_peaks_scaled k w w' Hk Hne H). unfold len. rewrite Hl. reflexivity.
  - rewrite !np_mean_nonempty
      by (first [destruct w; [congruence | discriminate]
                | destruct w'; [congruence | discriminate]]).
    eexists. eexists. split; [reflexivity|]. split; [reflexivity|].
    rewrite !len_map. unfold len. rewrite Hl. fold (len w).
    rewrite (np_sum_squares_scaled k w w' H). field. lra.
Qed.

Lemma map_inverted (w : list Q) :
  Forall2 (fun a b => b == (-1) * a) w (map Qopp w).
Proof.
  induction w; cbn [map]; constructor; [ring | assumption].
Qed.

(** X14. Inverting the polarity of a recording - every sample replaced by
    its negative - leaves the zero-crossing rate, the peak density and the
    energy as they are; the classifier therefore gives the same answer. *)
Theorem verdict_ignores_polarity (w : list Q) (lang : string) :
  w <> [] ->
  exists f f',
    waveform_features w = inr f
    /\ waveform_features (map Qopp w) = inr f'
    /\ zcr f' = zcr f
    /\ peak_density f' = peak_density f
    /\ feq (energy f') (energy f)
    /\ analyze f' lang = analyze f lang.
Proof.
  intros Hne.
  assert (Hk : ~ (-1) == 0) by discriminate.
  destruct (features_scaled (-1) w (map Qopp w) Hk Hne (map_inverted w))
    as (f & f' & Hf & Hf' & Hz & Hp & e & e' & He & He' & Hee).
  exists f, f'. repeat split; try assumption.
  - rewrite He, He'. cbn [feq]. rewrite Hee. ring.
  - apply analyze_ext; assumption.
Qed.

Lemma verdict_ignores_polarity_witness :
  [0; 0.5; 0.5; 0; -1; 0.25; 0.75; 0]%Q <> []
  /\ exists f f',
    waveform_features [0; 0.5; 0.5; 0; -1; 0.25; 0.75; 0] = inr f
    /\ waveform_features (map Qopp [0; 0.5; 0.5; 0; -1; 0.25; 0.75; 0]) = inr f'
    /\ zcr f' = zcr f
    /\ peak_density f' = peak_density f
    /\ feq (energy f') (energy f)
    /\ analyze f' "English" = analyze f "English".
Proof.
  assert (Hw : [0; 0.5; 0.5; 0; -1; 0.25; 0.75; 0]%Q <> []) by discriminate.
  split; [exact Hw|].
  exact (verdict_ignores_polarity [0; 0.5; 0.5; 0; -1; 0.25; 0.75; 0] "English" Hw).
Defined.

(** ** The URL path, end to end *)

(** X16. On the URL path with an accepted scheme, a download that fails
    is surfaced and never replaced by the fallback: a status other than 200
    gives the 400 error "Failed to download audio", a client exception
    (timeout, no connection) gives a server error; in both cases the URL is
    requested once, as it was sent, and no temporary file is created. *)
Theorem failed_download_surfaced (env : Env) (req : AudioRequest) (url : string)
        (w : World) :
  audio_url req = Some url ->
  url <> "" ->
  urlparse env url = Scheme "http" \/ urlparse env url = Scheme "https" ->
  (forall body, http_get env url <> Some (200%nat, body)) ->
  handler (fst (predict env req w)) =
    match http_get env url with
    | Some _ => ErrorBody 400 "Failed to download audio"
    | None => InternalServerError
    end
  /\ fetched (snd (predict env req w)) = url :: fetched w
  /\ files (snd (predict env req w)) = files w
  /\ created (snd (predict env req w)) = created w.
Proof.
  intros Hu Hne Hs Hget. destruct url as [|c u]; [congruence|].
  rewrite (predict_url_run env req c u w Hu). cbn zeta.
  assert (Hok : exists scheme,
             urlparse env (String c u) = Scheme scheme
             /\ negb (String.eqb scheme "http" || String.eqb scheme "https") = false).
  { destruct Hs as [Hs | Hs]; eexists; (split; [exact Hs | reflexivity]). }
  destruct Hok as (scheme & -> & ->).
  destruct (http_get env (String c u)) as [[status body]|]; [|repeat split].
  destruct (Nat.eqb_spec status 200) as [-> | Hn]; [|repeat split].
  exfalso. apply (Hget body). reflexivity.
Qed.

Lemma failed_download_surfaced_witness :
  (forall body, http_get not_found_env "http://host/gone.wav" <> Some (200%nat, body))
  /\ handler (fst (predict not_found_env (url_request "http://host/gone.wav" Omitted)
                           empty_world)) =
       ErrorBody 400 "Failed to download audio".
Proof.
  assert (H : forall body,
             http_get not_found_env "http://host/gone.wav" <> Some (200%nat, body))
    by (intros body; discriminate).
  split; [exact H|].
  apply (failed_download_surfaced not_found_env (url_request "http://host/gone.wav" Omitted)
           "http://host/gone.wav" empty_world eq_refl).
  - discriminate.
  - left. reflexivity.
  - exact H.
Defined.

(** X17. The two paths agree on the same audio: when the download of the
    URL path and the decoded payload of the inline path are both stored and
    read as the same non-empty audio, both requests get the same answer, the
    verdict of the classifier on the features of that audio, and each
    removes its temporary file. *)
Theorem both_paths_same_verdict (env : Env) (url data : string) (fmt lang : field)
        (body bytes : list Byte.byte) (audio : ndarray) (w : World) :
  url <> "" ->
  data <> "" ->
  urlparse env url = Scheme "http" \/ urlparse env url = Scheme "https" ->
  http_get env url = Some (200%nat, body) ->
  b64decode env data = Some bytes ->
  (forall sfx, tmp_create_ok env sfx = true) ->
  (forall d, tmp_write_ok env d = true) ->
  sf_read env {| suffix := ".wav"; content := body |} = Some audio ->
  sf_read env {| suffix := suffix_of (field_value fmt None); content := bytes |} = Some audio ->
  to_mono audio <> [] ->
  exists f,
    waveform_features (to_mono audio) = inr f
    /\ predict env (AudioRequest_of_body (Str url) Omitted Omitted lang) w =
         (inr (analyze f (or_default (field_value lang (Some "English")) "English")),
          released (requested w url))
    /\ predict env (AudioRequest_of_body Omitted (Str data) fmt lang) w =
         (inr (analyze f (or_default (field_value lang (Some "English")) "English")),
          released w).
Proof.
  intros Hu Hd Hs Hget Hdec Hc Hw Hr1 Hr2 Hne.
  destruct (waveform_features (to_mono audio)) as [e|f] eqn:Ef.
  { apply waveform_features_raises in Ef. destruct Ef as [E _]. congruence. }
  exists f. split; [reflexivity|].
  destruct url as [|c u]; [congruence|]. destruct data as [|c' d]; [congruence|].
  split.
  - rewrite (predict_url_run env
               (AudioRequest_of_body (Str (String c u)) Omitted Omitted lang) c u w eq_refl).
    cbn zeta.
    assert (Hok : exists scheme,
               urlparse env (String c u) = Scheme scheme
               /\ negb (String.eqb scheme "http" || String.eqb scheme "https") = false).
    { destruct Hs as [Hs | Hs]; eexists; (split; [exact Hs | reflexivity]). }
    destruct Hok as (scheme & -> & ->). rewrite Hget. cbn [Nat.eqb negb]. rewrite Hc, Hw, Hr1, Ef. reflexivity.
  - rewrite (predict_inline_run env
               (AudioRequest_of_body Omitted (Str (String c' d)) fmt lang) c' d w
               eq_refl eq_refl).
    cbn zeta.
    cbn [audioFormat AudioRequest_of_body]. rewrite Hdec, Hc, Hw, Hr2, Ef. reflexivity.
Qed.

Lemma both_paths_same_verdict_witness :
  exists f,
    waveform_features (to_mono (Mono [0; 0; 0])) = inr f
    /\ predict example_env
               (AudioRequest_of_body (Str "http://host/a.wav") Omitted Omitted (Str "Hindi"))
               empty_world =
         (inr (analyze f "Hindi"), released (requested empty_world "http://host/a.wav"))
    /\ predict example_env
               (AudioRequest_of_body Omitted (Str "AAAA") (Str "mp3") (Str "Hindi"))
               empty_world =
         (inr (analyze f "Hindi"), released empty_world).
Proof.
  apply (both_paths_same_verdict example_env "http://host/a.wav" "AAAA" (Str "mp3")
           (Str "Hindi") [Byte.x00; Byte.x00; Byte.x00] [Byte.x00; Byte.x00; Byte.x00]
           (Mono [0; 0; 0]) empty_world);
    try reflexivity; try discriminate.
  left. reflexivity.
Defined.

(** ** Shape of the results *)

(** X18. Every result sent with status 200 is well formed: the label is
    "AI Generated" or "Human"; the confidence is 0.5, 0.7, 0.71 or 0.9, so
    within [0, 1]; the label is "Human" exactly when the confidence is 0.5;
    the explanation starts with "Analysis suggests " and the label in lower
    case. *)
Theorem results_well_formed (env : Env) (req : AudioRequest) (w : World)
        (r : PredictionResponse) :
  handler (fst (predict env req w)) = Ok200 r ->
  (classification r = "AI Generated" \/ classification r = "Human")
  /\ (confidence r == 0.5 \/ confidence r == 0.7 \/ confidence r == 0.71
      \/ confidence r == 0.9)
  /\ 0 <= confidence r <= 1
  /\ (classification r = "Human" <-> confidence r == 0.5)
  /\ exists reasons,
       explanation r = "Analysis suggests " ++ lower (classification r) ++ " voice: " ++ reasons.
Proof.
  intros H. destruct (predict env req w) as [[e|r0] w'] eqn:Hp; cbn [fst handler] in H.
  { destruct e; discriminate H. }
  injection H as ->.
  destruct (predict_responds _ _ _ _ _ Hp) as [(f & ->) | (_ & _ & ->)].
  - unfold analyze.
    destruct (flt (peak_density f) 0.01), (flt (zcr f) 0.05); cbn;
      (split; [auto|]); (split; [auto 6; try (left; reflexivity);
                                 try (right; left; reflexivity);
                                 try (right; right; right; reflexivity)|]);
      (split; [split; discriminate|]);
      (split; [split; try discriminate; try reflexivity|]);
      eexists; reflexivity.
  - cbn. split; [auto|]. split; [right; right; left; reflexivity|].
    split; [split; discriminate|]. split; [split; discriminate|].
    eexists; reflexivity.
Qed.

Lemma results_well_formed_witness :
  handler (fst (predict example_env (inline_request "AAAA" Omitted) empty_world)) =
    Ok200 (analyze {| energy := Fin 0; zcr := Fin 0; peak_density := Fin 0 |} "English")
  /\ (classification (analyze {| energy := Fin 0; zcr := Fin 0; peak_density := Fin 0 |}
                              "English") = "Human" <->
      confidence (analyze {| energy := Fin 0; zcr := Fin 0; peak_density := Fin 0 |}
                          "English") == 0.5).
Proof.
  assert (H : handler (fst (predict example_env (inline_request "AAAA" Omitted) empty_world)) =
              Ok200 (analyze {| energy := Fin 0; zcr := Fin 0; peak_density := Fin 0 |}
                             "English")).
  { vm_compute. reflexivity. }
  split; [exact H|].
  exact (proj1 (proj2 (proj2 (proj2 (results_well_formed _ _ _ _ H))))).
Defined.

(** ** The clean-up *)

(** X19. The [finally] block of [predict] never raises, so it never hides
    the outcome of the request: with no path bound it does nothing; with a
    path bound, the file is gone afterwards - unlinked if it was there, left
    alone if it was not - and every other file is as before. *)
Theorem cleanup_never_raises (fr : Frame) :
  exists fr',
    cleanup fr = (inr tt, fr')
    /\ path fr' = path fr
    /\ (forall p, path fr = Some p -> files (world fr') !! p = None)
    /\ (forall q, path fr <> Some q -> files (world fr') !! q = files (world fr) !! q)
    /\ fetched (world fr') = fetched (world fr).
Proof.
  destruct fr as [[p|] w]; unfold cleanup; cbn [path world].
  - unfold in_world, bind, path_exists, os_unlink. cbn [world path].
    destruct (files w !! p) as [f|] eqn:Hp.
    + rewrite bool_decide_eq_true_2 by (eexists; reflexivity). rewrite Hp.
      eexists. split; [reflexivity|]. cbn [path world files fetched].
      split; [reflexivity|]. split; [|split; [|reflexivity]].
      * intros p' [= <-]. apply lookup_delete_eq.
      * intros q Hq. apply lookup_delete_ne. congruence.
    + rewrite bool_decide_eq_false_2 by (intros [x Hx]; discriminate Hx).
      unfold ret. eexists. split; [reflexivity|]. cbn [path world].
      split; [reflexivity|]. split; [|split; reflexivity].
      intros p' [= <-]. exact Hp.
  - eexists. split; [reflexivity|]. cbn [path world].
    split; [reflexivity|]. split; [discriminate|]. split; reflexivity.
Qed.

(** ** Rounding *)

Lemma round_half_even_near (y : Q) :
  Qabs (inject_Z (round_half_even y) - y) <= 1 # 2.
Proof.
  unfold round_half_even.
  pose proof (Qfloor_le y) as Hlo. pose proof (Qlt_floor y) as Hhi.
  rewrite inject_Z_plus in Hhi. change (inject_Z 1) with 1 in Hhi.
  set (f := inject_Z (Qfloor y)) in *.
  destruct (Qltb (y - f) (1 # 2)) eqn:E1.
  - apply Qltb_lt in E1. fold f. apply Qabs_Qle_condition. split; lra.
  - apply Qltb_ge in E1.
    assert (Hup : Qabs (inject_Z (Qfloor y + 1) - y) <= 1 # 2).
    { rewrite inject_Z_plus. change (inject_Z 1) with 1. fold f.
      apply Qabs_Qle_condition. split; lra. }
    destruct (Qltb (1 # 2) (y - f)) eqn:E2; [exact Hup|].
    apply Qltb_ge in E2.
    destruct (Z.even (Qfloor y)); [|exact Hup].
    fold f. apply Qabs_Qle_condition. split; lra.
Qed.

(** X20. [round(x, 2)], as [analyze] uses it, returns a multiple of one
    hundredth that is at most half a hundredth away from [x]; a value that
    already has two decimals is returned unchanged. *)
Theorem py_round2_nearest (x : Q) :
  (exists k : Z, py_round2 x == inject_Z k / 100)
  /\ Qabs (py_round2 x - x) <= 1 # 200
  /\ (forall k : Z, x == inject_Z k / 100 -> py_round2 x == x).
Proof.
  assert (Hn : Qabs (py_round2 x - x) <= 1 # 200).
  { unfold py_round2. rewrite Qred_correct.
    pose proof (round_half_even_near (x * 100)) as H.
    apply Qabs_Qle_condition in H. apply Qabs_Qle_condition.
    set (r := inject_Z (round_half_even (x * 100))) in *.
    destruct H as [H1 H2].
    assert (Hr : r / 100 == r * (1 # 100)) by (field; discriminate).
    rewrite Hr. split; lra. }
  split; [|split; [exact Hn|]].
  - exists (round_half_even (x * 100)). unfold py_round2. apply Qred_correct.
  - intros k Hk.
    assert (Hd : py_round2 x - x == inject_Z (round_half_even (x * 100) - k) / 100).
    { unfold py_round2. rewrite Qred_correct.
      set (r := round_half_even (x * 100)).
      unfold Zminus. rewrite inject_Z_plus, inject_Z_opp, Hk. field. }
    rewrite Hd in Hn.
    assert (Hz : (round_half_even (x * 100) - k = 0)%Z).
    { set (z := (round_half_even (x * 100) - k)%Z) in *.
      apply Qabs_Qle_condition in Hn. destruct Hn as [H1 H2].
      assert (Ha : -(1) < inject_Z z).
      { apply Qnot_le_lt. intros Hc.
        assert (inject_Z z / 100 <= - (1 # 100)).
        { apply Qle_shift_div_r; [reflexivity|]. lra. }
        lra. }
      assert (Hb : inject_Z z < 1).
      { apply Qnot_le_lt. intros Hc.
        assert ((1 # 100) <= inject_Z z / 100).
        { apply Qle_shift_div_l; [reflexivity|]. lra. }
        lra. }
      change (-(1)) with (inject_Z (-1)) in Ha. change 1 with (inject_Z 1) in Hb.
      rewrite <- Zlt_Qlt in Ha, Hb. lia. }
    rewrite Hz in Hd.
    assert (H0 : inject_Z 0 / 100 == 0) by reflexivity.
    rewrite H0 in Hd. lra.
Qed.
